(** * The login retry loop and circuit breaker of examples_postRequestPayload.js

    A shallow embedding of the stateful part of the k6 script
    [examples_postRequestPayload.js]: the process-wide [circuitState], the
    breaker [circuitBreaker], its bookkeeping [recordCircuitBreakerResult], the
    retrying [performLogin] and the setup-time [generateUserPool].

    The script talks to its host (k6) through [Date.now()], [http.post],
    [sleep], the metric objects, [console] and the random generators of
    k6-utils.  The host is modelled by a record of oracles ([Host]) that
    answer the n-th call of each kind, and everything the script does to the
    host is appended to a trace of [Event]s, so that statements such as
    "no network call is made" are statements about the trace. *)

From stdpp Require Import base option list strings gmap pretty.
From Stdlib Require Import Ascii ZArith QArith Qround Lia.

Set Warnings "-register-all".
#[local] Open Scope Z_scope.

(** ** Values exchanged with the host *)

(** A parsed JSON document, as [Response.json()] hands it to the script.
    Objects are finite maps from property names to values. *)
Inductive Json : Type :=
  | JNull
  | JBool (b : bool)
  | JNum (q : Q)
  | JStr (s : string)
  | JArr (items : list Json)
  | JObj (props : gmap string Json).

(** The parts of a k6 [Response] the script looks at.  [json] is the outcome
    of calling [r.json()]: [None] when the call throws (missing or malformed
    body).  k6 parses the stored body, so two calls on one response agree;
    this is why it is a field and not an oracle.  [duration] is
    [r.timings.duration] in milliseconds. *)
Record Response : Type := mkResponse {
  status : Z;
  json : option Json;
  duration : Q;
  headers : gmap string string;
}.

(** The metric objects declared at the top of the script. *)
Inductive Metric : Type :=
  | loginFailRate
  | tokenRefreshRate
  | requestDuration
  | dataProcessingTime
  | successfulLogins
  | bytesSent.

Inductive Level : Type := LogLevel | WarnLevel | ErrorLevel.

(** What the script does to the outside world.  Console events keep the
    level only; the message text plays no role in the control flow. *)
Inductive Event : Type :=
  | EHttpPost (payload : string) (retryCount : Z) (requestId : string)
  | ESleep (seconds : Z)
  | EMetric (m : Metric) (v : Z)
  | EConsole (lvl : Level).

#[global] Instance Metric_eq_dec : EqDecision Metric.
Proof. solve_decision. Defined.
#[global] Instance Level_eq_dec : EqDecision Level.
Proof. solve_decision. Defined.

(** ** Circuit state and configuration *)

Definition CIRCUIT_MAX_FAILURES : Z := 5.
Definition CIRCUIT_RESET_TIME : Z := 30.

(** [let circuitState = { failures: 0, openSince: null }].  [openSince] holds
    a [Date.now()] reading (milliseconds) or is [None] for [null]. *)
Record CircuitState : Type := mkCircuit {
  failures : Z;
  openSince : option Z;
}.

Definition initialCircuit : CircuitState :=
  {| failures := 0; openSince := None |}.

(** The fields of [CONFIG].  The numeric ones come from [parseInt] or from an
    integer default, hence [Z]; a [NaN] from an unparsable override is outside
    the model. *)
Record Config : Type := mkConfig {
  BASE_URL : string;
  LOGIN_ENDPOINT : string;
  AUTH_ENDPOINT : string;
  REQUEST_TIMEOUT : Z;
  CONNECTION_TIMEOUT : Z;
  ENVIRONMENT : string;
  USER_POOL_SIZE : Z;
  MAX_RETRIES : Z;
  RETRY_INTERVAL : Z;
}.

Definition defaultConfig : Config :=
  {| BASE_URL := "http://test.k6.io";
     LOGIN_ENDPOINT := "/login";
     AUTH_ENDPOINT := "/auth/token";
     REQUEST_TIMEOUT := 3000;
     CONNECTION_TIMEOUT := 1000;
     ENVIRONMENT := "staging";
     USER_POOL_SIZE := 5;
     MAX_RETRIES := 3;
     RETRY_INTERVAL := 2 |}.

(** One element of the user pool. *)
Record User : Type := mkUser {
  email : string;
  password : string;
  userId : string;
}.

(** The object [createLoginPayload] serialises. *)
Record LoginPayload : Type := mkLoginPayload {
  pl_email : string;
  pl_password : string;
  pl_deviceId : string;
  pl_appVersion : string;
  pl_osType : string;
  pl_ipAddress : string;
  pl_testRunId : string;
  pl_timestamp : Z;
  pl_correlationId : string;
}.

(** ** The host and the world *)

(** The host answers the script's calls.  [clock n] is the n-th reading of
    the wall clock ([Date.now()] or [new Date()]), [respond n] the response to
    the n-th [http.post], [random n] the n-th string drawn from [randomString]
    or [uuidv4]; [idInTest] is [exec.vu.idInTest] and [stringify] stands for
    [JSON.stringify] on the login payload.  Nothing is assumed about any of
    them: the clock need not be monotone and the random strings need not be
    distinct. *)
Record Host : Type := mkHost {
  clock : nat → Z;
  respond : nat → Response;
  random : nat → string;
  idInTest : Z;
  stringify : LoginPayload → string;
}.

(** The mutable state: the script's own [circuitState], how many answers of
    each oracle have been consumed, and the trace so far (oldest first). *)
Record World : Type := mkWorld {
  circuitState : CircuitState;
  ticks : nat;
  requests : nat;
  draws : nat;
  trace : list Event;
}.

Definition initialWorld : World :=
  {| circuitState := initialCircuit; ticks := 0; requests := 0; draws := 0;
     trace := [] |}.

(** ** A reader-state monad for the script *)

Definition M (A : Type) : Type := Host → World → A * World.

#[global] Instance M_ret : MRet M := λ A a _ w, (a, w).
#[global] Instance M_bind : MBind M := λ A B f m h w,
  let '(a, w') := m h w in f a h w'.

(** What a computation returns, and the world it leaves. *)
Definition returned {A} (m : M A) (h : Host) (w : World) : A := fst (m h w).
Definition after {A} (m : M A) (h : Host) (w : World) : World := snd (m h w).

Definition getCircuit : M CircuitState := λ _ w, (circuitState w, w).

Definition putCircuit (c : CircuitState) : M unit := λ _ w,
  (tt, {| circuitState := c; ticks := ticks w; requests := requests w;
          draws := draws w; trace := trace w |}).

Definition emit (e : Event) : M unit := λ _ w,
  (tt, {| circuitState := circuitState w; ticks := ticks w;
          requests := requests w; draws := draws w;
          trace := trace w ++ [e] |}).

(** [Date.now()] *)
Definition Date_now : M Z := λ h w,
  (clock h (ticks w),
   {| circuitState := circuitState w; ticks := S (ticks w);
      requests := requests w; draws := draws w; trace := trace w |}).

(** One call of a random generator. *)
Definition draw : M string := λ h w,
  (random h (draws w),
   {| circuitState := circuitState w; ticks := ticks w;
      requests := requests w; draws := S (draws w); trace := trace w |}).

(** The requested length is the generator's business; no statement below
    depends on what is drawn. *)
Definition randomString (len : nat) : M string := draw.
Definition uuidv4 : M string := draw.

(** [http.post(loginUrl, payload, params)]; of [params] the trace keeps the
    two parts that vary, [tags.retryCount] and the [X-Request-ID] header. *)
Definition http_post (payload : string) (retryCount : Z) (requestId : string)
  : M Response := λ h w,
  (respond h (requests w),
   {| circuitState := circuitState w; ticks := ticks w;
      requests := S (requests w); draws := draws w;
      trace := trace w ++ [EHttpPost payload retryCount requestId] |}).

Definition sleep (seconds : Z) : M unit := emit (ESleep seconds).
Definition metric_add (m : Metric) (v : Z) : M unit := emit (EMetric m v).
Definition console (lvl : Level) : M unit := emit (EConsole lvl).

(** ** The circuit breaker *)

Definition Qlt_bool (x y : Q) : bool := negb (Qle_bool y x).

(** [circuitBreaker(operationName)] *)
Definition circuitBreaker (operationName : string) : M bool :=
  c ← getCircuit;
  match openSince c with
  | Some since =>
      now ← Date_now;
      let elapsedSeconds := (inject_Z (now - since) / 1000)%Q in
      if Qlt_bool elapsedSeconds (inject_Z CIRCUIT_RESET_TIME) then
        console WarnLevel;;
        mret false
      else
        console LogLevel;;
        putCircuit {| failures := 0; openSince := None |};;
        mret true
  | None => mret true
  end.

(** [recordCircuitBreakerResult(success)] *)
Definition recordCircuitBreakerResult (success : bool) : M unit :=
  c ← getCircuit;
  if success then
    putCircuit {| failures := 0; openSince := openSince c |}
  else
    let c1 := {| failures := failures c + 1; openSince := openSince c |} in
    putCircuit c1;;
    if (CIRCUIT_MAX_FAILURES <=? failures c1) && bool_decide (openSince c1 = None)
    then
      now ← Date_now;
      putCircuit {| failures := failures c1; openSince := Some now |};;
      console ErrorLevel
    else mret tt.

(** ** The response rubric *)

(** [s.includes(needle)]: [needle] occurs somewhere in [s]. *)
Fixpoint includes (needle s : string) : bool :=
  String.prefix needle s ||
  match s with
  | EmptyString => false
  | String _ rest => includes needle rest
  end.

(** Reading [body.token]: a [TypeError] ([None]) on [null], [undefined]
    ([Some None]) on a value without that property. *)
Definition getToken (body : Json) : option (option Json) :=
  match body with
  | JNull => None
  | JObj props => Some (props !! "token")
  | _ => Some None
  end.

(** JavaScript truthiness of a possibly [undefined] value. *)
Definition truthy (v : option Json) : bool :=
  match v with
  | None | Some JNull => false
  | Some (JBool b) => b
  | Some (JNum q) => negb (Qeq_bool q 0)
  | Some (JStr s) => negb (String.eqb s "")
  | Some (JArr _) | Some (JObj _) => true
  end.

Definition isString (v : option Json) : bool :=
  match v with Some (JStr _) => true | _ => false end.

(** [v.length] for a string [v], one per character of the model's strings. *)
Definition strLength (v : option Json) : Z :=
  match v with Some (JStr s) => Z.of_nat (String.length s) | _ => 0 end.

Definition statusIs200 (r : Response) : bool := status r =? 200.

(** The [try]/[catch] of the 'has valid token' check: both a throwing
    [r.json()] and a throwing [body.token] end in [false]. *)
Definition hasValidToken (r : Response) : bool :=
  match json r with
  | None => false
  | Some body =>
      match getToken body with
      | None => false
      | Some token => truthy token && isString token && (10 <? strLength token)
      end
  end.

Definition responseTimeAcceptable (r : Response) : bool :=
  Qlt_bool (duration r) 2000.

Definition contentTypeIsJSON (r : Response) : bool :=
  match headers r !! "Content-Type" with
  | Some v => negb (String.eqb v "") && includes "application/json" v
  | None => false
  end.

Definition loginChecks : list (Response → bool) :=
  [statusIs200; hasValidToken; responseTimeAcceptable; contentTypeIsJSON].

(** k6's [check(val, sets)]: run every check, succeed when all did. *)
Definition check (r : Response) (sets : list (Response → bool)) : bool :=
  forallb (λ f, f r) sets.

(** ** Login *)

Definition askHost : M Host := λ h w, (h, w).

(** [createLoginPayload(user)] *)
Definition createLoginPayload (user : User) : M string :=
  processingStart ← Date_now;
  h ← askHost;
  testRunId ← uuidv4;
  timestamp ← Date_now;
  correlation ← uuidv4;
  let payload := stringify h
    {| pl_email := email user;
       pl_password := password user;
       pl_deviceId := "k6-load-test-" +:+ pretty (idInTest h);
       pl_appVersion := "2.5.0";
       pl_osType := "Test";
       pl_ipAddress := "192.0.2." +:+ pretty (Z.rem (idInTest h) 255);
       pl_testRunId := testRunId;
       pl_timestamp := timestamp;
       pl_correlationId := "corr-" +:+ correlation |} in
  t ← Date_now;
  metric_add dataProcessingTime (t - processingStart);;
  metric_add bytesSent (Z.of_nat (String.length payload));;
  mret payload.

(** How one pass through the body of the [while] loop ends: with [break]
    (and [result] assigned) or at the bottom, with the value [retries] has
    then. *)
Inductive Step : Type :=
  | Break (body : Json)
  | Continue (retries : Z).

(** The body of [while (retries <= CONFIG.MAX_RETRIES)].  [backoffTime] is
    [CONFIG.RETRY_INTERVAL * Math.pow(2, retries)], taken here in exact
    integer arithmetic.  The script computes it in doubles, which give the
    same number as long as [Math.pow(2, retries)] and the product stay
    finite, that is for [retries] up to 1023 and a product below 2^1024;
    beyond that the script passes [Infinity] (or [NaN], for an interval of
    0) to [sleep] and the model does not follow it.  The statements about
    sleep amounts that range over every configuration assume
    [backoffInRange], which keeps a run inside the exact range. *)
Definition loginAttempt (cfg : Config) (payload : string) (retries : Z)
  : M Step :=
  requestId ← uuidv4;
  startTime ← Date_now;
  response ← http_post payload retries requestId;
  t ← Date_now;
  metric_add requestDuration (t - startTime);;
  if check response loginChecks then
    metric_add successfulLogins 1;;
    recordCircuitBreakerResult true;;
    match json response with
    | Some body => console LogLevel;; mret (Break body)
    | None => console ErrorLevel;; mret (Continue retries)
    end
  else
    let backoffTime := RETRY_INTERVAL cfg * 2 ^ retries in
    metric_add loginFailRate 1;;
    console WarnLevel;;
    (if retries <? MAX_RETRIES cfg then sleep backoffTime else mret tt);;
    mret (Continue (retries + 1)).

(** A computation that may not have finished within its fuel. *)
Inductive Run (A : Type) : Type :=
  | Finished (a : A)
  | OutOfFuel.
Arguments Finished {A} a.
Arguments OutOfFuel {A}.

(** The [while] loop; it hands back the final [retries] and [result]
    ([None] for [null]).  The loop has a path that neither breaks nor counts,
    so it is run on fuel: one unit per pass. *)
Fixpoint loginLoop (fuel : nat) (cfg : Config) (payload : string)
    (retries : Z) : M (Run (Z * option Json)) :=
  match fuel with
  | O => mret OutOfFuel
  | S fuel' =>
      if retries <=? MAX_RETRIES cfg then
        s ← loginAttempt cfg payload retries;
        match s with
        | Break body => mret (Finished (retries, Some body))
        | Continue retries' => loginLoop fuel' cfg payload retries'
        end
      else mret (Finished (retries, None))
  end.

(** [performLogin(user)]; [Finished None] is the script's [return null]. *)
Definition performLogin (fuel : nat) (cfg : Config) (user : User)
  : M (Run (option Json)) :=
  allowed ← circuitBreaker "login";
  if negb allowed then mret (Finished None)
  else
    payload ← createLoginPayload user;
    out ← loginLoop fuel cfg payload 0;
    match out with
    | OutOfFuel => mret OutOfFuel
    | Finished (retries, result) =>
        if MAX_RETRIES cfg <? retries then
          recordCircuitBreakerResult false;;
          mret (Finished None)
        else mret (Finished result)
    end.

(** ** The user pool *)

(** The [for] loop of [generateUserPool], with [n] passes left, counter [i]
    and the array built so far. *)
Fixpoint generateUserPool_loop (n : nat) (i : Z) (users : list User)
  : M (list User) :=
  match n with
  | O => mret users
  | S n' =>
      r8 ← randomString 8;
      r12 ← randomString 12;
      uuid ← uuidv4;
      generateUserPool_loop n' (i + 1)
        (users ++ [{| email := "user" +:+ pretty i +:+ "_" +:+ r8
                                 +:+ "@example.com";
                      password := "Secure" +:+ r12 +:+ "!" +:+ pretty i;
                      userId := uuid |}])
  end.

(** [generateUserPool(poolSize)]: [i] runs from 0 while [i < poolSize]. *)
Definition generateUserPool (poolSize : Z) : M (list User) :=
  generateUserPool_loop (Z.to_nat poolSize) 0 [].

(** ** Sequences of breaker operations *)

Inductive BreakerOp : Type :=
  | Allow
  | RecordResult (succeeded : bool).

Definition breakerStep (op : BreakerOp) : M unit :=
  match op with
  | Allow => circuitBreaker "login";; mret tt
  | RecordResult b => recordCircuitBreakerResult b
  end.

Fixpoint breakerRun (ops : list BreakerOp) : M unit :=
  match ops with
  | [] => mret tt
  | op :: rest => breakerStep op;; breakerRun rest
  end.

(** [n] calls of the breaker in a row, with their answers. *)
Fixpoint allowTimes (n : nat) : M (list bool) :=
  match n with
  | O => mret []
  | S n' => b ← circuitBreaker "login"; bs ← allowTimes n'; mret (b :: bs)
  end.

(** ** Reading traces *)

Definition isMetric (m : Metric) (e : Event) : bool :=
  match e with EMetric m' _ => bool_decide (m' = m) | _ => false end.

Definition countEvents (p : Event → bool) (t : list Event) : nat :=
  length (filter (λ e, p e = true) t).

(** ** Sample hosts and responses

    Concrete inputs for the examples below. *)

Definition failing500 : Response :=
  {| status := 500; json := None; duration := 100; headers := ∅ |}.

Definition jsonHeaders : gmap string string :=
  {[ "Content-Type" := "application/json; charset=utf-8" ]}.

Definition goodResponse : Response :=
  {| status := 200;
     json := Some (JObj {[ "token" := JStr "abcdefghijk" ]});
     duration := 100;
     headers := jsonHeaders |}.

Definition shortTokenResponse : Response :=
  {| status := 200;
     json := Some (JObj {[ "token" := JStr "short" ]});
     duration := 100;
     headers := jsonHeaders |}.

(** A host whose clock advances one second per reading, whose n-th random
    string is the numeral of n, and which answers every request with [r]. *)
Definition hostAnswering (r : Response) : Host :=
  {| clock := λ n, 1000 * Z.of_nat n;
     respond := λ _, r;
     random := λ n, pretty n;
     idInTest := 1;
     stringify := pl_email |}.

Definition steadyHost : Host := hostAnswering failing500.

Definition sampleUser : User :=
  {| email := "user0_abcdefgh@example.com";
     password := "Secureabcdefghijkl!0";
     userId := "8d3f1c7e" |}.

(** ** Vocabulary of the statements *)

(** The invariant as the data model words it. *)
Definition openIffThreshold (c : CircuitState) : Prop :=
  is_Some (openSince c) ↔ CIRCUIT_MAX_FAILURES ≤ failures c.

(** What every breaker operation preserves. *)
Definition breakerInvariant (c : CircuitState) : Prop :=
  0 ≤ failures c
  ∧ (CIRCUIT_MAX_FAILURES ≤ failures c → is_Some (openSince c)).

(** The world after [n] failures recorded in a row. *)
Definition afterFailures (n : nat) (h : Host) (w : World) : World :=
  after (breakerRun (replicate n (RecordResult false))) h w.

(** The rubric in the words of the specification: status 200, a JSON body
    with a string [token] longer than 10, latency under the ceiling of
    2000 ms, and a Content-Type header in which [application/json] occurs. *)
Definition passesRubric (r : Response) : Prop :=
  status r = 200
  ∧ (∃ props token,
       json r = Some (JObj props)
       ∧ props !! "token" = Some (JStr token)
       ∧ (10 < String.length token)%nat)
  ∧ (duration r < 2000)%Q
  ∧ (∃ v pre post,
       headers r !! "Content-Type" = Some v
       ∧ v = pre +:+ "application/json" +:+ post).

(** The [n] responses the host gives from request number [start] on all
    fail the rubric. *)
Definition allFail (h : Host) (start n : nat) : Prop :=
  ∀ i : nat, (i < n)%nat → check (respond h (start + i)) loginChecks = false.

(** The network-facing part of a trace: requests (with their retry count)
    and sleeps, in order. *)
Inductive NetAct : Type :=
  | Attempt (retryCount : Z)
  | Wait (seconds : Z).

Definition netAct (e : Event) : option NetAct :=
  match e with
  | EHttpPost _ k _ => Some (Attempt k)
  | ESleep s => Some (Wait s)
  | _ => None
  end.

Definition netView (t : list Event) : list NetAct := omap netAct t.

(** [n] attempts numbered from [k], each but the last followed by its
    back-off. *)
Fixpoint backoffSchedule (interval k : Z) (n : nat) : list NetAct :=
  match n with
  | O => []
  | S n' =>
      Attempt k ::
      match n' with
      | O => []
      | S _ => Wait (interval * 2 ^ k) :: backoffSchedule interval (k + 1) n'
      end
  end.

(** The user built in the pass with counter [i] when [d] random strings had
    been drawn before it. *)
Definition generatedUser (h : Host) (i : Z) (d : nat) : User :=
  {| email := "user" +:+ pretty i +:+ "_" +:+ random h d +:+ "@example.com";
     password := "Secure" +:+ random h (S d) +:+ "!" +:+ pretty i;
     userId := random h (S (S d)) |}.

(** The character [c] does not occur in [s]. *)
Fixpoint freeOf (c : Ascii.ascii) (s : string) : Prop :=
  match s with
  | EmptyString => True
  | String a s' => a ≠ c ∧ freeOf c s'
  end.

(** What a failed attempt appends to the trace. *)
Definition failedAttemptEvents (cfg : Config) (payload : string) (retries : Z)
    (h : Host) (w : World) : list Event :=
  [EHttpPost payload retries (random h (draws w));
   EMetric requestDuration (clock h (S (ticks w)) - clock h (ticks w));
   EMetric loginFailRate 1;
   EConsole WarnLevel]
  ++ (if retries <? MAX_RETRIES cfg
      then [ESleep (RETRY_INTERVAL cfg * 2 ^ retries)] else []).

(** What a passing attempt appends to the trace. *)
Definition passedAttemptEvents (payload : string) (retries : Z)
    (h : Host) (w : World) : list Event :=
  [EHttpPost payload retries (random h (draws w));
   EMetric requestDuration (clock h (S (ticks w)) - clock h (ticks w));
   EMetric successfulLogins 1;
   EConsole LogLevel].

(** ** Further readings of a trace *)

(** The payloads and the [X-Request-ID] headers of the requests, in order. *)
Definition postPayloads (t : list Event) : list string :=
  omap (λ e, match e with EHttpPost p _ _ => Some p | _ => None end) t.

Definition requestIds (t : list Event) : list string :=
  omap (λ e, match e with EHttpPost _ _ id => Some id | _ => None end) t.

(** The values added to one metric, in order. *)
Definition metricValues (m : Metric) (t : list Event) : list Z :=
  omap (λ e, match e with
             | EMetric m' v => if bool_decide (m' = m) then Some v else None
             | _ => None
             end) t.

(** The seconds slept, summed. *)
Definition totalSleep (t : list Event) : Z :=
  foldr Z.add 0
    (omap (λ e, match e with ESleep s => Some s | _ => None end) t).

(** [k] logins one after the other, as [k] iterations of one virtual user
    make them. *)
Fixpoint loginTimes (k fuel : nat) (cfg : Config) (user : User)
  : M (list (Run (option Json))) :=
  match k with
  | O => mret []
  | S k' =>
      r ← performLogin fuel cfg user;
      rs ← loginTimes k' fuel cfg user;
      mret (r :: rs)
  end.

(** The seconds waited in a network view, summed. *)
Definition totalWait (v : list NetAct) : Z :=
  foldr (λ a acc, match a with Wait s => s + acc | Attempt _ => acc end) 0 v.

(** ** The random-string utility of example.js *)

Module Example.

(** [const charset = 'abcdefghijklmnopqrstuvwxyz0123456789'] *)
Definition charset : string := "abcdefghijklmnopqrstuvwxyz0123456789".

(** [charset[i]] inside [res += ...]: the character at an index in range,
    and the text ["undefined"] that concatenation makes of a missing one. *)
Definition charsetAt (i : Z) : string :=
  if i <? 0 then "undefined"
  else match String.get (Z.to_nat i) charset with
       | Some c => String c EmptyString
       | None => "undefined"
       end.

(** [while (length--) res += charset[Math.floor(Math.random() * charset.length)]].
    [mathRandom n] is the answer of the n-th call of [Math.random()], a
    rational here, and [calls] counts the calls made.  The condition reads
    [length], which ends the loop when it is 0, and then decrements it.  One
    unit of fuel per evaluation of the condition. *)
Fixpoint randomString_loop (fuel : nat) (mathRandom : nat → Q) (calls : nat)
    (length : Z) (res : string) : Run (string * nat) :=
  match fuel with
  | O => OutOfFuel
  | S fuel' =>
      if length =? 0 then Finished (res, calls)
      else
        let index :=
          Qfloor (mathRandom calls
                  * inject_Z (Z.of_nat (String.length charset))) in
        randomString_loop fuel' mathRandom (S calls) (length - 1)
          (res +:+ charsetAt index)
  end.

(** [randomString(length)], with the number of [Math.random()] calls made
    so far threaded through. *)
Definition randomString (fuel : nat) (mathRandom : nat → Q) (calls : nat)
    (length : Z) : Run (string * nat) :=
  randomString_loop fuel mathRandom calls length "".

(** Every character of [s] occurs in [cs]. *)
Fixpoint charsFrom (cs s : string) : Prop :=
  match s with
  | EmptyString => True
  | String c s' => (∃ i, String.get i cs = Some c) ∧ charsFrom cs s'
  end.

End Example.

(** ** The stages of the script: [setup] and the default function

    The stages use more of the host than the login does: [Math.random()],
    [randomIntBetween] of k6-utils, [http.get], a second kind of
    [http.post], and [throw].  They run in a monad of their own, on top of
    the login's. *)

Inductive Exn : Type :=
  | TypeError
  | Error (message : string).

(** How a stage ends: normally, with an exception that nothing in the script
    catches, or not within the fuel of its login. *)
Inductive Completion (A : Type) : Type :=
  | Normal (a : A)
  | Thrown (e : Exn)
  | Unfinished.
Arguments Normal {A} a.
Arguments Thrown {A} e.
Arguments Unfinished {A}.

(** Requests other than the login's. *)
Inductive Call : Type :=
  | HealthGet (url : string)
  | RefreshPost (url payload authorization : string).

(** The host of the stages: the login's host and three more oracles.
    [mathRandom n] and [randomInt n min max] answer the n-th random call,
    whichever of [Math.random()] and [randomIntBetween(min, max)] it is;
    [stringifyRefresh] stands for [JSON.stringify] on the refresh payload,
    as a function of its [token] value, and [jsToString] for the text a
    template literal makes of a value that is not a string. *)
Record Driver : Type := mkDriver {
  host : Host;
  mathRandom : nat → Q;
  randomInt : nat → Z → Z → Z;
  stringifyRefresh : option Json → string;
  jsToString : option Json → string;
}.

Record Session : Type := mkSession {
  world : World;
  rolls : nat;
  calls : list Call;
}.

Definition Script (A : Type) : Type :=
  Driver → Session → Completion A * Session.

#[global] Instance Script_ret : MRet Script := λ A a _ s, (Normal a, s).
#[global] Instance Script_bind : MBind Script := λ A B f m d s,
  match m d s with
  | (Normal a, s') => f a d s'
  | (Thrown e, s') => (Thrown e, s')
  | (Unfinished, s') => (Unfinished, s')
  end.

Definition throw {A} (e : Exn) : Script A := λ _ s, (Thrown e, s).

Definition askDriver : Script Driver := λ d s, (Normal d, s).

(** Running a piece of the login layer inside a stage. *)
Definition liftM {A} (m : M A) : Script A := λ d s,
  let '(a, w') := m (host d) (world s) in
  (Normal a, {| world := w'; rolls := rolls s; calls := calls s |}).

Definition liftRun {A} (m : M (Run A)) : Script A := λ d s,
  let '(r, w') := m (host d) (world s) in
  (match r with Finished a => Normal a | OutOfFuel => Unfinished end,
   {| world := w'; rolls := rolls s; calls := calls s |}).

(** [Math.random()] *)
Definition Math_random : Script Q := λ d s,
  (Normal (mathRandom d (rolls s)),
   {| world := world s; rolls := S (rolls s); calls := calls s |}).

(** [randomIntBetween(min, max)] *)
Definition randomIntBetween (min max : Z) : Script Z := λ d s,
  (Normal (randomInt d (rolls s) min max),
   {| world := world s; rolls := S (rolls s); calls := calls s |}).

(** A request of the stages: it takes the host's next response, like the
    login's requests, and is noted in [calls]. *)
Definition request (c : Call) : Script Response := λ d s,
  let w := world s in
  (Normal (respond (host d) (requests w)),
   {| world := {| circuitState := circuitState w; ticks := ticks w;
                  requests := S (requests w); draws := draws w;
                  trace := trace w |};
      rolls := rolls s;
      calls := calls s ++ [c] |}).

(** A template literal's text for a value. *)
Definition templateText (d : Driver) (v : option Json) : string :=
  match v with
  | Some (JStr s) => s
  | _ => jsToString d v
  end.

(** [performLogin(user)] for a [user] that may be [undefined]: the breaker
    is asked as always; when it allows, [createLoginPayload] reads the clock
    and then fails on [user.email]. *)
Definition performLoginOn (fuel : nat) (cfg : Config) (user : option User)
  : Script (option Json) :=
  match user with
  | Some u => liftRun (performLogin fuel cfg u)
  | None =>
      allowed ← liftM (circuitBreaker "login");
      if negb allowed then mret None
      else
        liftM Date_now;;
        throw TypeError
  end.


(** The token refresh inside [if (Math.random() < 0.3)]. *)
Definition refreshToken (cfg : Config) (loginResult : Json) : Script unit :=
  match getToken loginResult with
  | None => throw TypeError
  | Some token =>
      d ← askDriver;
      let refreshPayload := stringifyRefresh d token in
      refreshResponse ←
        request (RefreshPost (BASE_URL cfg +:+ AUTH_ENDPOINT cfg +:+ "/refresh")
                   refreshPayload ("Bearer " +:+ templateText d token));
      if check refreshResponse [statusIs200]
      then liftM (metric_add tokenRefreshRate 0)
      else liftM (metric_add tokenRefreshRate 1)
  end.

(** [data.userPool[userIndex]] *)
Definition userAt (userPool : list User) (userIndex : Z) : option User :=
  if userIndex <? 0 then None else userPool !! Z.to_nat userIndex.

(** The default function, one iteration of a virtual user.  [group] runs its
    function and lets exceptions through. *)
Definition iteration (fuel : nat) (cfg : Config) (userPool : list User)
  : Script unit :=
  userIndex ← randomIntBetween 0 (Z.of_nat (length userPool) - 1);
  loginResult ← performLoginOn fuel cfg (userAt userPool userIndex);
  (if truthy loginResult then
     match loginResult with
     | Some body =>
         pause ← randomIntBetween 1 3;
         liftM (sleep pause);;
         r ← Math_random;
         if Qlt_bool r (3 # 10) then refreshToken cfg body else mret tt
     | None => mret tt
     end
   else mret tt);;
  think ← randomIntBetween 1 5;
  liftM (sleep think).

Definition initialSession : Session :=
  {| world := initialWorld; rolls := 0; calls := [] |}.

(** A driver on the host [h] whose random integers are the lower bound and
    whose [Math.random()] is always [r]. *)
Definition driverOn (h : Host) (r : Q) : Driver :=
  {| host := h;
     mathRandom := λ _, r;
     randomInt := λ _ min _, min;
     stringifyRefresh := λ v, match v with Some (JStr s) => s | _ => "" end;
     jsToString := λ _, "undefined" |}.

(** The configurations whose back-off delays the script's doubles compute
    exactly: an interval that is an integer of at most 53 bits, at most 1023
    retries, and a largest product, [RETRY_INTERVAL * 2^MAX_RETRIES], below
    the overflow threshold of a double. *)
Definition backoffInRange (cfg : Config) : Prop :=
  0 ≤ MAX_RETRIES cfg ≤ 1023
  ∧ Z.abs (RETRY_INTERVAL cfg) ≤ 2 ^ 53
  ∧ Z.abs (RETRY_INTERVAL cfg) * 2 ^ MAX_RETRIES cfg < 2 ^ 1024.

(** * Properties *)

(** ** Unfolding the primitives *)

Ltac run_script :=
  unfold returned, after, breakerStep, sleep, metric_add, console, uuidv4,
    randomString;
  cbv [mbind mret M_bind M_ret getCircuit putCircuit emit Date_now draw
       http_post askHost];
  cbn [fst snd circuitState ticks requests draws trace failures openSince].

(** The breaker's float comparison [elapsedSeconds < CIRCUIT_RESET_TIME], stated
    on the millisecond readings. *)
Lemma elapsed_lt_reset (d : Z) :
  Qlt_bool (inject_Z d / 1000) (inject_Z CIRCUIT_RESET_TIME)
  = (d <? CIRCUIT_RESET_TIME * 1000).
Proof.
  unfold Qlt_bool, Qle_bool, Qdiv, Qmult, Qinv, inject_Z, CIRCUIT_RESET_TIME.
  cbn [Qnum Qden].
  destruct (Z.ltb_spec d (30 * 1000)), (Z.leb_spec (30 * Z.pos (1 * 1000)) (d * 1 * 1));
    cbn; try reflexivity; lia.
Qed.

Section Breaker.
Context (h : Host) (w : World).

Lemma circuitBreaker_closed (name : string) :
  openSince (circuitState w) = None →
  circuitBreaker name h w = (true, w).
Proof.
  intros Hc. unfold circuitBreaker. run_script. rewrite Hc. reflexivity.
Qed.

Lemma circuitBreaker_cooling (name : string) (since : Z) :
  openSince (circuitState w) = Some since →
  clock h (ticks w) - since < CIRCUIT_RESET_TIME * 1000 →
  circuitBreaker name h w =
    (false, {| circuitState := circuitState w; ticks := S (ticks w);
               requests := requests w; draws := draws w;
               trace := trace w ++ [EConsole WarnLevel] |}).
Proof.
  intros Ho Hlt. unfold circuitBreaker. run_script. rewrite Ho.
  rewrite elapsed_lt_reset.
  destruct (Z.ltb_spec (clock h (ticks w) - since) (CIRCUIT_RESET_TIME * 1000));
    [reflexivity | lia].
Qed.

Lemma circuitBreaker_cooled (name : string) (since : Z) :
  openSince (circuitState w) = Some since →
  CIRCUIT_RESET_TIME * 1000 ≤ clock h (ticks w) - since →
  circuitBreaker name h w =
    (true, {| circuitState := initialCircuit; ticks := S (ticks w);
              requests := requests w; draws := draws w;
              trace := trace w ++ [EConsole LogLevel] |}).
Proof.
  intros Ho Hge. unfold circuitBreaker. run_script. rewrite Ho.
  rewrite elapsed_lt_reset.
  destruct (Z.ltb_spec (clock h (ticks w) - since) (CIRCUIT_RESET_TIME * 1000));
    [lia | reflexivity].
Qed.

(** The breaker's answer depends on [openSince] and the clock only. *)
Lemma circuitBreaker_returned (name : string) :
  returned (circuitBreaker name) h w =
    match openSince (circuitState w) with
    | None => true
    | Some since =>
        negb (clock h (ticks w) - since <? CIRCUIT_RESET_TIME * 1000)
    end.
Proof.
  unfold circuitBreaker. run_script.
  destruct (openSince (circuitState w)) as [since|]; [| reflexivity].
  rewrite elapsed_lt_reset.
  destruct (_ <? _); reflexivity.
Qed.

Lemma record_success :
  recordCircuitBreakerResult true h w =
    (tt, {| circuitState := {| failures := 0;
                               openSince := openSince (circuitState w) |};
            ticks := ticks w; requests := requests w; draws := draws w;
            trace := trace w |}).
Proof. reflexivity. Qed.

(** A failure that does not open the breaker: below the threshold, or the
    breaker is open already. *)
Lemma record_failure_quiet :
  failures (circuitState w) + 1 < CIRCUIT_MAX_FAILURES
  ∨ is_Some (openSince (circuitState w)) →
  recordCircuitBreakerResult false h w =
    (tt, {| circuitState := {| failures := failures (circuitState w) + 1;
                               openSince := openSince (circuitState w) |};
            ticks := ticks w; requests := requests w; draws := draws w;
            trace := trace w |}).
Proof.
  intros Hq. unfold recordCircuitBreakerResult. run_script.
  destruct (Z.leb_spec CIRCUIT_MAX_FAILURES (failures (circuitState w) + 1));
    cbn [andb]; [| reflexivity].
  destruct Hq as [Hlt | [t Ht]]; [lia |].
  rewrite Ht. rewrite bool_decide_eq_false_2 by discriminate. reflexivity.
Qed.

(** A failure that opens the breaker. *)
Lemma record_failure_opens :
  CIRCUIT_MAX_FAILURES ≤ failures (circuitState w) + 1 →
  openSince (circuitState w) = None →
  recordCircuitBreakerResult false h w =
    (tt, {| circuitState := {| failures := failures (circuitState w) + 1;
                               openSince := Some (clock h (ticks w)) |};
            ticks := S (ticks w); requests := requests w; draws := draws w;
            trace := trace w ++ [EConsole ErrorLevel] |}).
Proof.
  intros Hge Hc. unfold recordCircuitBreakerResult. run_script.
  destruct (Z.leb_spec CIRCUIT_MAX_FAILURES (failures (circuitState w) + 1));
    [| lia].
  rewrite Hc. reflexivity.
Qed.
End Breaker.

(** ** Recording a success *)

(** C2, the claim as written fails: five failures open the breaker, a success
    is then recorded, and one second after the opening the breaker still
    refuses, although the counter is back at 0. *)
Lemma success_leaves_breaker_open :
  let w5 := after (breakerRun (replicate 5 (RecordResult false)))
                  steadyHost initialWorld in
  let w6 := after (recordCircuitBreakerResult true) steadyHost w5 in
  openSince (circuitState w5) = Some 0
  ∧ circuitState w6 = {| failures := 0; openSince := Some 0 |}
  ∧ clock steadyHost (ticks w6) = 1000
  ∧ returned (circuitBreaker "login") steadyHost w6 = false.
Proof. vm_compute. repeat split. Qed.

(** C2, amended: recording a success sets [failures] to 0 whatever the state
    and leaves [openSince] (and the rest of the world) as it was, so the
    breaker's next answer is the one it would have given without the success:
    [true] exactly when the breaker was not open or its cool-down is over. *)
Theorem record_success_resets_counter_only (h : Host) (w : World)
    (name : string) :
  let w1 := after (recordCircuitBreakerResult true) h w in
  failures (circuitState w1) = 0
  ∧ openSince (circuitState w1) = openSince (circuitState w)
  ∧ (ticks w1, requests w1, draws w1, trace w1)
    = (ticks w, requests w, draws w, trace w)
  ∧ returned (circuitBreaker name) h w1 = returned (circuitBreaker name) h w
  ∧ (returned (circuitBreaker name) h w1 = true ↔
     match openSince (circuitState w) with
     | None => True
     | Some since => CIRCUIT_RESET_TIME * 1000 ≤ clock h (ticks w) - since
     end).
Proof.
  intros w1. subst w1. unfold after. rewrite record_success. cbn [snd].
  repeat split; try reflexivity.
  - rewrite !circuitBreaker_returned. reflexivity.
  - rewrite circuitBreaker_returned. cbn.
    destruct (openSince (circuitState w)) as [since|]; [| done].
    destruct (Z.ltb_spec (clock h (ticks w) - since) (CIRCUIT_RESET_TIME * 1000));
      cbn; [discriminate | lia].
  - rewrite circuitBreaker_returned. cbn.
    destruct (openSince (circuitState w)) as [since|]; [| done].
    intros Hge.
    destruct (Z.ltb_spec (clock h (ticks w) - since) (CIRCUIT_RESET_TIME * 1000));
      cbn; [lia | reflexivity].
Qed.

(** ** The invariant linking [openSince] and [failures] *)

Lemma breakerStep_invariant (h : Host) (op : BreakerOp) (w : World) :
  breakerInvariant (circuitState w) →
  breakerInvariant (circuitState (after (breakerStep op) h w)).
Proof.
  intros [Hpos Hinv]. unfold breakerInvariant, CIRCUIT_MAX_FAILURES in *.
  destruct op as [| [|]]; unfold after, breakerStep.
  - unfold circuitBreaker. run_script.
    destruct (openSince (circuitState w)) as [since|] eqn:Ho; cbn.
    + destruct (Qlt_bool _ _); cbn.
      * rewrite Ho. eauto.
      * split; [done |]. intros ?. lia.
    + rewrite Ho. split; assumption.
  - rewrite record_success. cbn. split; [done |]. intros ?. lia.
  - destruct (openSince (circuitState w)) as [since|] eqn:Ho.
    + rewrite record_failure_quiet by (right; rewrite Ho; eauto).
      cbn. rewrite Ho. split; [lia | eauto].
    + destruct (Z.lt_ge_cases (failures (circuitState w) + 1)
                  CIRCUIT_MAX_FAILURES) as [Hlt | Hge].
      * rewrite record_failure_quiet by (left; exact Hlt).
        unfold CIRCUIT_MAX_FAILURES in Hlt.
        cbn. split; [lia | intros ?; lia].
      * rewrite record_failure_opens by assumption.
        cbn. split; [lia | eauto].
Qed.

Lemma breakerRun_cons (h : Host) (op : BreakerOp) (ops : list BreakerOp) (w : World) :
  after (breakerRun (op :: ops)) h w = after (breakerRun ops) h (after (breakerStep op) h w).
Proof.
  unfold after. cbn [breakerRun]. cbv [mbind M_bind].
  destruct (breakerStep op h w) as [[] w1]. reflexivity.
Qed.

(** C3, the claim as written fails: after five failures and one success
    [openSince] is still set while [failures] is 0. *)
Lemma open_with_counter_reset :
  let c := circuitState
             (after (breakerRun (replicate 5 (RecordResult false)
                              ++ [RecordResult true]))
                    steadyHost initialWorld) in
  c = {| failures := 0; openSince := Some 0 |} ∧ ¬ openIffThreshold c.
Proof.
  vm_compute. split; [reflexivity |].
  intros [Hto _]. specialize (Hto (ex_intro _ _ eq_refl)). apply Hto. reflexivity.
Qed.

Lemma breakerRun_app (h : Host) (ops1 ops2 : list BreakerOp) (w : World) :
  after (breakerRun (ops1 ++ ops2)) h w
  = after (breakerRun ops2) h (after (breakerRun ops1) h w).
Proof.
  revert w. induction ops1 as [| op ops1 IH]; intros w; [reflexivity |].
  cbn [app]. rewrite !breakerRun_cons. apply IH.
Qed.

(** Only a failure that brings the counter to the threshold sets
    [openSince]. *)
Lemma breakerStep_opens (h : Host) (op : BreakerOp) (w : World) :
  openSince (circuitState w) = None →
  is_Some (openSince (circuitState (after (breakerStep op) h w))) →
  CIRCUIT_MAX_FAILURES ≤ failures (circuitState (after (breakerStep op) h w)).
Proof.
  intros Hc. destruct op as [| [|]]; unfold after, breakerStep.
  - cbv [mbind M_bind]. rewrite (circuitBreaker_closed h w "login" Hc).
    cbn. rewrite Hc. intros [? ?]. discriminate.
  - rewrite record_success. cbn. rewrite Hc. intros [? ?]. discriminate.
  - destruct (Z.lt_ge_cases (failures (circuitState w) + 1)
                CIRCUIT_MAX_FAILURES) as [Hlt | Hge].
    + rewrite record_failure_quiet by (left; exact Hlt).
      cbn. rewrite Hc. intros [? ?]. discriminate.
    + rewrite record_failure_opens by assumption. cbn. intros _. exact Hge.
Qed.

(** C3, amended: in every state reached from the initial one by breaker
    operations, a counter at or above the threshold implies that [openSince]
    is set; and if [openSince] is set, then the counter was at or above the
    threshold, with [openSince] set, after some earlier part of the run.
    (Its present value may be lower: a success on an open breaker resets the
    counter and keeps [openSince].) *)
Theorem threshold_implies_open (h : Host) (w : World) (ops : list BreakerOp) :
  circuitState w = initialCircuit →
  let c := circuitState (after (breakerRun ops) h w) in
  (CIRCUIT_MAX_FAILURES ≤ failures c → is_Some (openSince c))
  ∧ (is_Some (openSince c) →
     ∃ (before later : list BreakerOp),
       ops = before ++ later
       ∧ let c0 := circuitState (after (breakerRun before) h w) in
         CIRCUIT_MAX_FAILURES ≤ failures c0 ∧ is_Some (openSince c0)).
Proof.
  intros Hinit c. subst c. split.
  - assert (Hinv : breakerInvariant (circuitState w)).
    { rewrite Hinit. split; cbn; [lia |]. unfold CIRCUIT_MAX_FAILURES.
      intros ?. lia. }
    clear Hinit. revert w Hinv.
    induction ops as [| op ops IH]; intros w Hinv.
    + exact (proj2 Hinv).
    + rewrite breakerRun_cons. apply IH. apply breakerStep_invariant. exact Hinv.
  - induction ops as [| op ops IH] using rev_ind.
    + unfold after. cbn. rewrite Hinit. intros [? ?]. discriminate.
    + rewrite breakerRun_app. intros Hopen.
      destruct (openSince (circuitState (after (breakerRun ops) h w)))
        as [since |] eqn:Hbefore.
      * destruct IH as (before & later & -> & Hreach); [eauto |].
        exists before, (later ++ [op]). split; [symmetry; apply app_assoc |].
        exact Hreach.
      * exists (ops ++ [op]), []. split; [symmetry; apply app_nil_r |].
        rewrite breakerRun_app. split; [| exact Hopen].
        change (breakerRun [op]) with (breakerStep op;; mret tt : M unit) in *.
        assert (Hstep : ∀ w1, after (breakerStep op;; mret tt : M unit) h w1
                              = after (breakerStep op) h w1).
        { intros w1. unfold after. cbv [mbind M_bind mret M_ret].
          destruct (breakerStep op h w1) as [[] ?]. reflexivity. }
        rewrite Hstep in *. apply breakerStep_opens; assumption.
Qed.

Lemma threshold_implies_open_witness :
  let c := circuitState
             (after (breakerRun (replicate 5 (RecordResult false)
                              ++ [RecordResult true]))
                    steadyHost initialWorld) in
  (CIRCUIT_MAX_FAILURES ≤ failures c → is_Some (openSince c))
  ∧ (is_Some (openSince c) →
     ∃ (before later : list BreakerOp),
       replicate 5 (RecordResult false) ++ [RecordResult true]
       = before ++ later
       ∧ let c0 := circuitState (after (breakerRun before) steadyHost initialWorld) in
         CIRCUIT_MAX_FAILURES ≤ failures c0 ∧ is_Some (openSince c0)).
Proof.
  apply (threshold_implies_open steadyHost initialWorld
           (replicate 5 (RecordResult false) ++ [RecordResult true])).
  reflexivity.
Defined.

(** ** Opening the breaker *)

Lemma afterFailures_S (n : nat) (h : Host) (w : World) :
  afterFailures (S n) h w
  = afterFailures n h (after (recordCircuitBreakerResult false) h w).
Proof. unfold afterFailures. cbn [replicate]. apply breakerRun_cons. Qed.

(** Failures on a breaker that is open already only count. *)
Lemma failures_on_open_breaker (h : Host) (n : nat) (w : World) :
  is_Some (openSince (circuitState w)) →
  afterFailures n h w =
    {| circuitState := {| failures := failures (circuitState w) + Z.of_nat n;
                          openSince := openSince (circuitState w) |};
       ticks := ticks w; requests := requests w; draws := draws w;
       trace := trace w |}.
Proof.
  revert w. induction n as [| n IH]; intros w Ho.
  - unfold afterFailures, after. cbn. rewrite Z.add_0_r.
    destruct w as [[f o] ? ? ? ?]. reflexivity.
  - rewrite afterFailures_S. unfold after at 1.
    rewrite record_failure_quiet by (right; exact Ho). cbn [snd].
    rewrite IH by exact Ho. cbn. do 2 f_equal. lia.
Qed.

(** Failures on a closed breaker: the one that brings the counter to the
    threshold takes the single clock reading and opens the breaker. *)
Lemma failures_on_closed_breaker (h : Host) (n : nat) (w : World) :
  openSince (circuitState w) = None →
  CIRCUIT_MAX_FAILURES ≤ failures (circuitState w) + Z.of_nat n →
  (1 ≤ n)%nat →
  afterFailures n h w =
    {| circuitState := {| failures := failures (circuitState w) + Z.of_nat n;
                          openSince := Some (clock h (ticks w)) |};
       ticks := S (ticks w); requests := requests w; draws := draws w;
       trace := trace w ++ [EConsole ErrorLevel] |}.
Proof.
  revert w. induction n as [| n IH]; intros w Hc Hge Hn; [lia |].
  rewrite afterFailures_S. unfold after at 1.
  destruct (Z.lt_ge_cases (failures (circuitState w) + 1) CIRCUIT_MAX_FAILURES)
    as [Hlt | Hnow].
  - rewrite record_failure_quiet by (left; exact Hlt). cbn [snd].
    rewrite IH; cbn; [| assumption | lia | lia].
    do 2 f_equal. lia.
  - rewrite record_failure_opens by assumption. cbn [snd].
    rewrite failures_on_open_breaker by (cbn; eauto). cbn.
    do 2 f_equal. lia.
Qed.

(** While the cool-down runs, the breaker refuses call after call and leaves
    the circuit state alone. *)
Lemma allowTimes_cooling (h : Host) (since : Z) (m : nat) (w : World) :
  openSince (circuitState w) = Some since →
  (∀ i : nat, (i < m)%nat →
     clock h (ticks w + i) - since < CIRCUIT_RESET_TIME * 1000) →
  returned (allowTimes m) h w = replicate m false
  ∧ circuitState (after (allowTimes m) h w) = circuitState w.
Proof.
  revert w. induction m as [| m IH]; intros w Ho Hearly; [done |].
  unfold returned, after. cbn [allowTimes]. cbv [mbind M_bind mret M_ret].
  rewrite (circuitBreaker_cooling h w "login" since Ho).
  2:{ specialize (Hearly 0%nat). rewrite Nat.add_0_r in Hearly.
      apply Hearly. lia. }
  match goal with |- context [allowTimes m h ?w1] =>
    destruct (IH w1) as [Hres Hst];
    [ exact Ho
    | intros i Hi; cbn [ticks];
      replace (S (ticks w) + i)%nat with (ticks w + S i)%nat by lia;
      apply Hearly; lia
    | unfold returned, after in Hres, Hst;
      destruct (allowTimes m h w1) as [bs w2] ]
  end.
  cbn in *. subst bs. split; [reflexivity | exact Hst].
Qed.

(** C4: from a closed breaker, five or more failures in a row open it exactly
    once: a single clock reading is taken, it becomes [openSince], one
    "circuit opened" error is logged and nothing else happens; after that,
    every call of the breaker whose clock reading is less than
    [CIRCUIT_RESET_TIME] seconds past that timestamp is refused. *)
Theorem failures_open_breaker_once (h : Host) (w : World) (n m : nat) :
  openSince (circuitState w) = None →
  0 ≤ failures (circuitState w) →
  (Z.to_nat CIRCUIT_MAX_FAILURES ≤ n)%nat →
  let w' := afterFailures n h w in
  let openedAt := clock h (ticks w) in
  (∀ i : nat, (i < m)%nat →
     clock h (ticks w' + i) - openedAt < CIRCUIT_RESET_TIME * 1000) →
  openSince (circuitState w') = Some openedAt
  ∧ failures (circuitState w') = failures (circuitState w) + Z.of_nat n
  ∧ ticks w' = S (ticks w)
  ∧ trace w' = trace w ++ [EConsole ErrorLevel]
  ∧ returned (allowTimes m) h w' = replicate m false
  ∧ circuitState (after (allowTimes m) h w') = circuitState w'.
Proof.
  intros Hc Hpos Hn w' openedAt. subst w' openedAt.
  unfold CIRCUIT_MAX_FAILURES in Hn.
  rewrite failures_on_closed_breaker;
    [| assumption | unfold CIRCUIT_MAX_FAILURES; lia | lia].
  cbn [circuitState openSince failures ticks trace]. intros Hearly.
  repeat split.
  all: eapply allowTimes_cooling; [reflexivity | exact Hearly].
Qed.

Lemma failures_open_breaker_once_witness :
  let w' := afterFailures 7 steadyHost initialWorld in
  openSince (circuitState w') = Some 0
  ∧ failures (circuitState w') = 7
  ∧ ticks w' = 1%nat
  ∧ trace w' = [EConsole ErrorLevel]
  ∧ returned (allowTimes 3) steadyHost w' = [false; false; false]
  ∧ circuitState (after (allowTimes 3) steadyHost w') = circuitState w'.
Proof.
  apply (failures_open_breaker_once steadyHost initialWorld 7 3).
  - reflexivity.
  - cbn. lia.
  - vm_compute. lia.
  - intros i Hi.
    change (ticks (afterFailures 7 steadyHost initialWorld)) with 1%nat.
    cbv [steadyHost hostAnswering clock initialWorld ticks CIRCUIT_RESET_TIME].
    lia.
Defined.

(** ** The rubric *)

Lemma append_cons (a : Ascii.ascii) (s t : string) :
  String a s +:+ t = String a (s +:+ t).
Proof. reflexivity. Qed.

Lemma append_nil (t : string) : "" +:+ t = t.
Proof. reflexivity. Qed.

Lemma prefix_spec (n s : string) :
  String.prefix n s = true ↔ ∃ post, s = n +:+ post.
Proof.
  revert s. induction n as [| a n IH]; intros s.
  - destruct s; cbn; (split; [intros _; eexists; reflexivity | reflexivity]).
  - destruct s as [| b s]; cbn [String.prefix].
    + split; [discriminate |].
      intros [post Hp]. rewrite append_cons in Hp. discriminate.
    + destruct (Ascii.ascii_dec a b) as [-> | Hne].
      * rewrite IH. split; intros [post Hp]; exists post.
        -- rewrite append_cons. f_equal. exact Hp.
        -- rewrite append_cons in Hp. injection Hp as Hp. exact Hp.
      * split; [discriminate |].
        intros [post Hp]. rewrite append_cons in Hp. injection Hp as Hab _.
        exfalso. apply Hne. symmetry. exact Hab.
Qed.

Lemma includes_spec (n s : string) :
  includes n s = true ↔ ∃ pre post, s = pre +:+ n +:+ post.
Proof.
  induction s as [| a s IH]; cbn [includes].
  - rewrite orb_false_r, prefix_spec. split.
    + intros [post Hp]. exists "", post. exact Hp.
    + intros [[| b pre] [post Hp]].
      * exists post. exact Hp.
      * rewrite append_cons in Hp. discriminate.
  - rewrite orb_true_iff, prefix_spec, IH. split.
    + intros [[post Hp] | [pre [post Hp]]].
      * exists "", post. exact Hp.
      * exists (String a pre), post. rewrite append_cons. f_equal. exact Hp.
    + intros [[| b pre] [post Hp]].
      * left. exists post. exact Hp.
      * right. rewrite append_cons in Hp. injection Hp as _ Hp.
        exists pre, post. exact Hp.
Qed.

Lemma Qlt_bool_spec (x y : Q) : Qlt_bool x y = true ↔ (x < y)%Q.
Proof.
  unfold Qlt_bool. rewrite negb_true_iff. split.
  - intros Hle. apply Qnot_le_lt. intros Hyx.
    apply Qle_bool_iff in Hyx. congruence.
  - intros Hlt. destruct (Qle_bool y x) eqn:Hb; [| reflexivity].
    apply Qle_bool_iff in Hb. exfalso. exact (Qlt_not_le _ _ Hlt Hb).
Qed.

Lemma hasValidToken_spec (r : Response) :
  hasValidToken r = true ↔
  ∃ props token,
    json r = Some (JObj props)
    ∧ props !! "token" = Some (JStr token)
    ∧ (10 < String.length token)%nat.
Proof.
  unfold hasValidToken. split.
  - destruct (json r) as [[| | | | | props] |]; cbn; try discriminate.
    destruct (props !! "token") as [[| | | token | |] |] eqn:Ht; cbn;
      rewrite ?andb_false_r; try discriminate.
    rewrite andb_true_r. intros [_ Hlen]%andb_true_iff.
    exists props, token. repeat split; [exact Ht |].
    apply Z.ltb_lt in Hlen. lia.
  - intros (props & token & -> & Ht & Hlen). cbn. rewrite Ht. cbn.
    rewrite andb_true_r. apply andb_true_iff. split.
    + destruct token; [cbn in Hlen; lia | reflexivity].
    + apply Z.ltb_lt. lia.
Qed.

Lemma contentTypeIsJSON_spec (r : Response) :
  contentTypeIsJSON r = true ↔
  ∃ v pre post,
    headers r !! "Content-Type" = Some v
    ∧ v = pre +:+ "application/json" +:+ post.
Proof.
  unfold contentTypeIsJSON. split.
  - destruct (headers r !! "Content-Type") as [v |]; [| discriminate].
    intros [_ Hinc]%andb_true_iff. apply includes_spec in Hinc.
    destruct Hinc as (pre & post & Hv). exists v, pre, post. done.
  - intros (v & pre & post & -> & Hv).
    assert (Hinc : includes "application/json" v = true).
    { apply includes_spec. eauto. }
    rewrite Hinc, andb_true_r.
    destruct v; [subst; destruct pre; discriminate | reflexivity].
Qed.

Lemma check_loginChecks (r : Response) :
  check r loginChecks =
    statusIs200 r && hasValidToken r && responseTimeAcceptable r
    && contentTypeIsJSON r.
Proof.
  unfold check, loginChecks. cbn. rewrite andb_true_r, !andb_assoc. reflexivity.
Qed.

Lemma check_spec (r : Response) :
  check r loginChecks = true ↔ passesRubric r.
Proof.
  rewrite check_loginChecks, !andb_true_iff. unfold passesRubric.
  rewrite hasValidToken_spec, contentTypeIsJSON_spec.
  unfold statusIs200, responseTimeAcceptable.
  rewrite Z.eqb_eq, Qlt_bool_spec. tauto.
Qed.

(** A response that passes the rubric has a body that parses. *)
Lemma check_parses (r : Response) :
  check r loginChecks = true → ∃ body, json r = Some body.
Proof.
  intros Hc. apply check_spec in Hc.
  destruct Hc as (_ & (props & _ & Hj & _) & _). eauto.
Qed.

(** ** One pass through the retry loop *)

Lemma loginAttempt_fail (cfg : Config) (payload : string) (retries : Z)
    (h : Host) (w : World) :
  check (respond h (requests w)) loginChecks = false →
  loginAttempt cfg payload retries h w =
    (Continue (retries + 1),
     {| circuitState := circuitState w; ticks := S (S (ticks w));
        requests := S (requests w); draws := S (draws w);
        trace := trace w ++ failedAttemptEvents cfg payload retries h w |}).
Proof.
  intros Hc. unfold loginAttempt, failedAttemptEvents. run_script.
  rewrite Hc. run_script.
  destruct (retries <? MAX_RETRIES cfg); run_script;
    rewrite <- !app_assoc; reflexivity.
Qed.

Lemma loginAttempt_pass (cfg : Config) (payload : string) (retries : Z)
    (h : Host) (w : World) (body : Json) :
  check (respond h (requests w)) loginChecks = true →
  json (respond h (requests w)) = Some body →
  loginAttempt cfg payload retries h w =
    (Break body,
     {| circuitState := {| failures := 0;
                           openSince := openSince (circuitState w) |};
        ticks := S (S (ticks w));
        requests := S (requests w); draws := S (draws w);
        trace := trace w ++ passedAttemptEvents payload retries h w |}).
Proof.
  intros Hc Hj. unfold loginAttempt, passedAttemptEvents. run_script.
  rewrite Hc. unfold recordCircuitBreakerResult. run_script.
  rewrite Hj. run_script. rewrite <- !app_assoc. reflexivity.
Qed.

(** C8: an attempt passes exactly when the response meets the whole rubric:
    status 200, a JSON body whose [token] is a string longer than 10,
    latency below 2000 ms and a Content-Type containing [application/json].
    A passing attempt breaks out of the loop with the body; any other one
    counts a login failure and a retry.  A 200 response whose token has at
    most 10 characters, such as ["short"], fails 'has valid token' and is
    such a failed attempt. *)
Theorem attempt_passes_iff_rubric (cfg : Config) (payload : string)
    (retries : Z) (h : Host) (w : World) :
  let r := respond h (requests w) in
  let outcome := returned (loginAttempt cfg payload retries) h w in
  let w' := after (loginAttempt cfg payload retries) h w in
  (check r loginChecks = true ↔ passesRubric r)
  ∧ ((∃ body, json r = Some body ∧ outcome = Break body) ↔ passesRubric r)
  ∧ (outcome = Continue (retries + 1)
     ∧ EMetric loginFailRate 1 ∈ drop (length (trace w)) (trace w')
     ↔ ¬ passesRubric r)
  ∧ (∀ props token,
       status r = 200 →
       json r = Some (JObj props) →
       props !! "token" = Some (JStr token) →
       (String.length token ≤ 10)%nat →
       hasValidToken r = false ∧ outcome = Continue (retries + 1))
  ∧ hasValidToken shortTokenResponse = false
  ∧ check shortTokenResponse loginChecks = false.
Proof.
  intros r outcome w'. subst outcome w'. unfold returned, after.
  split; [apply check_spec |].
  destruct (check r loginChecks) eqn:Hc.
  - assert (Hp : passesRubric r) by (apply check_spec; exact Hc).
    destruct (check_parses r Hc) as [body Hj].
    rewrite (loginAttempt_pass cfg payload retries h w body Hc Hj). cbn [fst snd].
    split; [split; [done | eauto] |].
    split; [split; [intros [? _]; discriminate | done] |].
    split; [| split; reflexivity].
    intros props token _ Hj' Ht Hlen. exfalso.
    destruct Hp as (_ & (props' & token' & Hj'' & Ht' & Hlen') & _).
    fold r in Hj'. rewrite Hj' in Hj''. injection Hj'' as <-.
    rewrite Ht in Ht'. injection Ht' as <-. lia.
  - assert (Hp : ¬ passesRubric r).
    { intros Hp. apply check_spec in Hp. congruence. }
    rewrite (loginAttempt_fail cfg payload retries h w Hc). cbn [fst snd trace].
    split; [split; [intros (body & _ & ?); discriminate | done] |].
    split.
    { split; [done |]. intros _. split; [reflexivity |].
      rewrite drop_app_length. unfold failedAttemptEvents.
      apply elem_of_app. left. set_solver. }
    split; [| split; reflexivity].
    intros props token _ Hj Ht Hlen. split; [| reflexivity].
    destruct (hasValidToken r) eqn:Hv; [| reflexivity].
    apply hasValidToken_spec in Hv.
    destruct Hv as (props' & token' & Hj' & Ht' & Hlen').
    fold r in Hj. rewrite Hj in Hj'. injection Hj' as <-.
    rewrite Ht in Ht'. injection Ht' as <-. lia.
Qed.

(** ** The retry loop *)

Lemma netView_app (t1 t2 : list Event) :
  netView (t1 ++ t2) = netView t1 ++ netView t2.
Proof. apply omap_app. Qed.

Lemma netView_failed (cfg : Config) (payload : string) (retries : Z)
    (h : Host) (w : World) :
  netView (failedAttemptEvents cfg payload retries h w) =
    Attempt retries ::
    (if retries <? MAX_RETRIES cfg
     then [Wait (RETRY_INTERVAL cfg * 2 ^ retries)] else []).
Proof.
  unfold failedAttemptEvents. destruct (retries <? MAX_RETRIES cfg); reflexivity.
Qed.

Lemma allFail_S (h : Host) (start n : nat) :
  check (respond h start) loginChecks = false →
  allFail h (S start) n →
  allFail h start (S n).
Proof.
  intros H0 Hrest [| i] Hi.
  - rewrite Nat.add_0_r. exact H0.
  - replace (start + S i)%nat with (S start + i)%nat by lia.
    apply Hrest. lia.
Qed.

(** How the loop ends.  With more fuel than passes left it finishes after
    some [n] requests, at most one per remaining value of [retries]; requests
    and sleeps alternate as [backoffSchedule] says; and either every response
    failed and [retries] ran past [MAX_RETRIES] with the breaker untouched, or
    the last response passed, its body is the result and a success was
    recorded. *)
Lemma loginLoop_spec (cfg : Config) (payload : string) (h : Host) :
  ∀ (fuel : nat) (retries : Z) (w : World),
    Z.max 0 (MAX_RETRIES cfg - retries + 1) < Z.of_nat fuel →
    ∃ (n : nat) (out : Z * option Json) (w' : World) (t : list Event),
      loginLoop fuel cfg payload retries h w = (Finished out, w')
      ∧ Z.of_nat n ≤ Z.max 0 (MAX_RETRIES cfg - retries + 1)
      ∧ requests w' = (requests w + n)%nat
      ∧ trace w' = trace w ++ t
      ∧ netView t = backoffSchedule (RETRY_INTERVAL cfg) retries n
      ∧ ((out = (retries + Z.of_nat n, None)
          ∧ MAX_RETRIES cfg < retries + Z.of_nat n
          ∧ allFail h (requests w) n
          ∧ circuitState w' = circuitState w)
         ∨ (∃ (body : Json) (m : nat),
              n = S m
              ∧ out = (retries + Z.of_nat m, Some body)
              ∧ retries + Z.of_nat m ≤ MAX_RETRIES cfg
              ∧ allFail h (requests w) m
              ∧ check (respond h (requests w + m)) loginChecks = true
              ∧ json (respond h (requests w + m)) = Some body
              ∧ circuitState w' =
                  {| failures := 0;
                     openSince := openSince (circuitState w) |})).
Proof.
  induction fuel as [| fuel IH]; intros retries w Hfuel; [lia |].
  cbn [loginLoop].
  destruct (Z.leb_spec retries (MAX_RETRIES cfg)) as [Hle | Hgt].
  - cbv [mbind M_bind].
    destruct (check (respond h (requests w)) loginChecks) eqn:Hc.
    + destruct (check_parses _ Hc) as [body Hj].
      rewrite (loginAttempt_pass cfg payload retries h w body Hc Hj).
      exists 1%nat, (retries, Some body). eexists. eexists.
      split; [reflexivity |]. cbn [requests trace circuitState].
      split; [lia |]. split; [lia |]. split; [reflexivity |].
      split; [reflexivity |]. right. exists body, 0%nat.
      rewrite Nat.add_0_r, Z.add_0_r.
      repeat split; try assumption. intros i Hi. lia.
    + rewrite (loginAttempt_fail cfg payload retries h w Hc).
      match goal with |- context [loginLoop fuel cfg payload _ h ?w1] =>
        destruct (IH (retries + 1) w1) as (n & out & w' & t & Hrun & Hn & Hreq
                                            & Htr & Hview & Hend); [lia |]
      end.
      cbn [requests trace circuitState] in *.
      exists (S n), out, w',
        (failedAttemptEvents cfg payload retries h w ++ t).
      split; [exact Hrun |]. split; [lia |]. split; [lia |].
      split; [rewrite Htr, app_assoc; reflexivity |].
      split.
      * rewrite netView_app, netView_failed, Hview. cbn [backoffSchedule app].
        f_equal. destruct n as [| n].
        -- destruct Hend as [(_ & Hpast & _) | (body & m & Hm & _)];
             [| discriminate].
           destruct (Z.ltb_spec retries (MAX_RETRIES cfg)); [lia | reflexivity].
        -- destruct (Z.ltb_spec retries (MAX_RETRIES cfg)); [reflexivity | lia].
      * destruct Hend as [(Hout & Hpast & Hall & Hst)
                         | (body & m & Hm & Hout & Hin & Hall & Hc' & Hj & Hst)].
        -- left. repeat split; [rewrite Hout; f_equal; lia | lia | | exact Hst].
           apply allFail_S; assumption.
        -- right. exists body, (S m). subst n.
           replace (requests w + S m)%nat with (S (requests w) + m)%nat by lia.
           repeat split; try assumption; [rewrite Hout; f_equal; lia | lia |].
           apply allFail_S; assumption.
  - exists 0%nat, (retries, None), w, []. cbv [mret M_ret].
    split; [reflexivity |]. split; [lia |]. split; [lia |].
    split; [rewrite app_nil_r; reflexivity |]. split; [reflexivity |].
    left. rewrite Z.add_0_r. repeat split; [lia |].
    intros i Hi. lia.
Qed.

(** Fuel beyond the need changes nothing. *)
Lemma loginLoop_fuel (cfg : Config) (payload : string) (h : Host) :
  ∀ (fuel fuel' : nat) (retries : Z) (w : World) out w',
    loginLoop fuel cfg payload retries h w = (Finished out, w') →
    (fuel ≤ fuel')%nat →
    loginLoop fuel' cfg payload retries h w = (Finished out, w').
Proof.
  induction fuel as [| fuel IH]; intros fuel' retries w out w' Hrun Hle;
    [discriminate |].
  destruct fuel' as [| fuel']; [lia |].
  cbn [loginLoop] in *.
  destruct (retries <=? MAX_RETRIES cfg); [| exact Hrun].
  cbv [mbind M_bind] in *.
  destruct (loginAttempt cfg payload retries h w) as [[body | retries'] w1];
    [exact Hrun |].
  apply IH; [exact Hrun | lia].
Qed.

Lemma createLoginPayload_spec (user : User) (h : Host) (w : World) :
  ∃ (payload : string) (t : list Event),
    createLoginPayload user h w =
      (payload,
       {| circuitState := circuitState w; ticks := S (S (S (ticks w)));
          requests := requests w; draws := S (S (draws w));
          trace := trace w ++ t |})
    ∧ netView t = [].
Proof.
  unfold createLoginPayload. run_script.
  eexists. eexists. split.
  - rewrite <- app_assoc. reflexivity.
  - reflexivity.
Qed.

(** ** The whole login *)

(** An allowing breaker leaves a closed circuit behind and touches neither the
    network nor the request counter. *)
Lemma circuitBreaker_allows (name : string) (h : Host) (w : World) :
  returned (circuitBreaker name) h w = true →
  ∃ (w0 : World) (t0 : list Event),
    circuitBreaker name h w = (true, w0)
    ∧ openSince (circuitState w0) = None
    ∧ requests w0 = requests w
    ∧ trace w0 = trace w ++ t0
    ∧ netView t0 = [].
Proof.
  intros Hres. rewrite circuitBreaker_returned in Hres.
  destruct (openSince (circuitState w)) as [since |] eqn:Ho.
  - apply negb_true_iff, Z.ltb_ge in Hres.
    rewrite (circuitBreaker_cooled h w name since Ho Hres).
    eexists. exists [EConsole LogLevel]. repeat split.
  - rewrite (circuitBreaker_closed h w name Ho).
    exists w, []. rewrite app_nil_r. repeat split. exact Ho.
Qed.

Lemma circuitBreaker_denies (name : string) (h : Host) (w : World) :
  returned (circuitBreaker name) h w = false →
  circuitBreaker name h w =
    (false, {| circuitState := circuitState w; ticks := S (ticks w);
               requests := requests w; draws := draws w;
               trace := trace w ++ [EConsole WarnLevel] |}).
Proof.
  intros Hres. rewrite circuitBreaker_returned in Hres.
  destruct (openSince (circuitState w)) as [since |] eqn:Ho; [| discriminate].
  apply negb_false_iff, Z.ltb_lt in Hres.
  exact (circuitBreaker_cooling h w name since Ho Hres).
Qed.

(** Recording a failure adds one to the counter and stays off the network. *)
Lemma record_failure_frame (h : Host) (w : World) :
  ∃ (w' : World) (t : list Event),
    recordCircuitBreakerResult false h w = (tt, w')
    ∧ failures (circuitState w') = failures (circuitState w) + 1
    ∧ requests w' = requests w
    ∧ trace w' = trace w ++ t
    ∧ netView t = [].
Proof.
  unfold recordCircuitBreakerResult. run_script.
  destruct (_ && _); run_script; eexists; eexists.
  - split; [reflexivity |]. cbn. repeat split.
  - split; [reflexivity |]. cbn. exists. 1: reflexivity.
    split; [reflexivity |]. split; [symmetry; apply app_nil_r | reflexivity].
Qed.

(** How a login ends: refused by the breaker, or out of retries with one failure
    recorded, or with the body of the first passing response. *)
Lemma performLogin_spec (cfg : Config) (user : User) (h : Host) (w : World)
    (fuel : nat) :
  Z.max 0 (MAX_RETRIES cfg + 1) < Z.of_nat fuel →
  ∃ (n : nat) (r : option Json) (w' : World) (t : list Event),
    performLogin fuel cfg user h w = (Finished r, w')
    ∧ Z.of_nat n ≤ Z.max 0 (MAX_RETRIES cfg + 1)
    ∧ requests w' = (requests w + n)%nat
    ∧ trace w' = trace w ++ t
    ∧ netView t = backoffSchedule (RETRY_INTERVAL cfg) 0 n
    ∧ ((returned (circuitBreaker "login") h w = false
        ∧ n = 0%nat ∧ r = None
        ∧ circuitState w' = circuitState w)
       ∨ (returned (circuitBreaker "login") h w = true
          ∧ r = None
          ∧ MAX_RETRIES cfg < Z.of_nat n
          ∧ allFail h (requests w) n
          ∧ failures (circuitState w') =
              failures (circuitState (after (circuitBreaker "login") h w)) + 1)
       ∨ (returned (circuitBreaker "login") h w = true
          ∧ ∃ (body : Json) (m : nat),
              n = S m ∧ r = Some body
              ∧ allFail h (requests w) m
              ∧ check (respond h (requests w + m)) loginChecks = true
              ∧ json (respond h (requests w + m)) = Some body
              ∧ circuitState w' = initialCircuit)).
Proof.
  intros Hfuel. unfold performLogin. cbv [mbind M_bind].
  destruct (returned (circuitBreaker "login") h w) eqn:Hbreaker.
  - destruct (circuitBreaker_allows "login" h w Hbreaker)
      as (w0 & t0 & Hrun0 & Hclosed & Hreq0 & Htr0 & Hview0).
    unfold after. rewrite Hrun0. cbn [negb snd].
    destruct (createLoginPayload_spec user h w0) as (payload & t1 & Hrun1 & Hview1).
    rewrite Hrun1.
    match goal with |- context [loginLoop fuel cfg payload 0 h ?w1] =>
      destruct (loginLoop_spec cfg payload h fuel 0 w1)
        as (n & out & w2 & t2 & Hrun2 & Hn & Hreq2 & Htr2 & Hview2 & Hend);
        [lia |]
    end.
    rewrite Hrun2. cbn [requests trace circuitState] in *.
    destruct Hend as [(-> & Hpast & Hall & Hst)
                     | (body & m & -> & -> & Hin & Hall & Hc & Hj & Hst)].
    + destruct (Z.ltb_spec (MAX_RETRIES cfg) (0 + Z.of_nat n)); [| lia].
      destruct (record_failure_frame h w2)
        as (w3 & t3 & Hrun3 & Hfail & Hreq3 & Htr3 & Hview3).
      rewrite Hrun3. cbv [mret M_ret].
      exists n, None, w3, (t0 ++ t1 ++ t2 ++ t3).
      split; [reflexivity |]. split; [lia |].
      split; [rewrite Hreq3, Hreq2, Hreq0; reflexivity |].
      split; [rewrite Htr3, Htr2, Htr0, <- !app_assoc; reflexivity |].
      split; [rewrite !netView_app, Hview0, Hview1, Hview2, Hview3, app_nil_r;
              reflexivity |].
      right. left. rewrite <- Hreq0.
      split; [reflexivity |]. split; [reflexivity |]. split; [lia |].
      split; [assumption |]. rewrite Hfail, Hst. reflexivity.
    + destruct (Z.ltb_spec (MAX_RETRIES cfg) (0 + Z.of_nat m)); [lia |].
      cbv [mret M_ret].
      exists (S m), (Some body), w2, (t0 ++ t1 ++ t2).
      split; [reflexivity |]. split; [lia |].
      split; [rewrite Hreq2, Hreq0; reflexivity |].
      split; [rewrite Htr2, Htr0, <- !app_assoc; reflexivity |].
      split; [rewrite !netView_app, Hview0, Hview1, Hview2; reflexivity |].
      right. right. split; [reflexivity |]. exists body, m.
      rewrite <- Hreq0.
      split; [reflexivity |]. split; [reflexivity |]. split; [assumption |].
      split; [assumption |]. split; [assumption |].
      rewrite Hst, Hclosed. reflexivity.
  - rewrite (circuitBreaker_denies "login" h w Hbreaker). cbn [negb].
    cbv [mret M_ret].
    eexists 0%nat, None, _, [EConsole WarnLevel].
    split; [reflexivity |]. cbn. split; [lia |]. split; [lia |].
    split; [reflexivity |]. split; [reflexivity |].
    left. repeat split.
Qed.

Lemma performLogin_fuel (cfg : Config) (user : User) (h : Host) (w : World)
    (fuel fuel' : nat) (r : option Json) (w' : World) :
  performLogin fuel cfg user h w = (Finished r, w') →
  (fuel ≤ fuel')%nat →
  performLogin fuel' cfg user h w = (Finished r, w').
Proof.
  unfold performLogin. cbv [mbind M_bind]. intros Hrun Hle.
  destruct (circuitBreaker "login" h w) as [[|] w0]; cbn [negb] in *;
    [| exact Hrun].
  destruct (createLoginPayload user h w0) as [payload w1].
  destruct (loginLoop fuel cfg payload 0 h w1) as [[[retries res] |] w2] eqn:Hloop;
    [| discriminate].
  rewrite (loginLoop_fuel cfg payload h fuel fuel' 0 w1 _ _ Hloop Hle).
  exact Hrun.
Qed.

(** A first response that passes: one request, the body is returned, no
    failure counted. *)
Example login_succeeds_first_try :
  let h := hostAnswering goodResponse in
  returned (performLogin 5 defaultConfig sampleUser) h initialWorld
    = Finished (json goodResponse)
  ∧ requests (after (performLogin 5 defaultConfig sampleUser) h initialWorld)
    = 1%nat
  ∧ circuitState (after (performLogin 5 defaultConfig sampleUser) h initialWorld)
    = initialCircuit.
Proof. vm_compute. repeat split. Qed.

Lemma backoffSchedule_length (interval k : Z) (n : nat) :
  length (backoffSchedule interval k n) = (n + (n - 1))%nat.
Proof.
  revert k. induction n as [| n IH]; intros k; [reflexivity |].
  cbn [backoffSchedule]. destruct n as [| n]; [reflexivity |].
  cbn [length]. rewrite IH. lia.
Qed.

Lemma backoffSchedule_attempt (interval : Z) (n : nat) :
  ∀ (k : Z) (j : nat),
    (j < n)%nat →
    backoffSchedule interval k n !! (2 * j)%nat = Some (Attempt (k + Z.of_nat j)).
Proof.
  induction n as [| n IH]; intros k j Hj; [lia |].
  destruct j as [| j].
  - cbn. f_equal. f_equal. lia.
  - destruct n as [| n]; [lia |].
    replace (2 * S j)%nat with (S (S (2 * j))) by lia.
    cbn [backoffSchedule lookup list_lookup].
    change (backoffSchedule interval (k + 1) (S n) !! (2 * j)%nat
            = Some (Attempt (k + Z.of_nat (S j)))).
    rewrite IH by lia. f_equal. f_equal. lia.
Qed.

Lemma backoffSchedule_wait (interval : Z) (n : nat) :
  ∀ (k : Z) (j : nat),
    (1 ≤ j < n)%nat →
    backoffSchedule interval k n !! (2 * j - 1)%nat
    = Some (Wait (interval * 2 ^ (k + Z.of_nat j - 1))).
Proof.
  induction n as [| n IH]; intros k j Hj; [lia |].
  destruct n as [| n]; [lia |].
  destruct j as [| [| j]]; [lia | |].
  - cbn. f_equal. f_equal. f_equal. f_equal. lia.
  - replace (2 * S (S j) - 1)%nat with (S (S (2 * S j - 1))) by lia.
    cbn [backoffSchedule lookup list_lookup].
    change (backoffSchedule interval (k + 1) (S n) !! (2 * S j - 1)%nat
            = Some (Wait (interval * 2 ^ (k + Z.of_nat (S (S j)) - 1)))).
    rewrite IH by lia. f_equal. f_equal. f_equal. f_equal. lia.
Qed.

(** ** What the breaker sees of a login *)

(** C1, the claim as written fails: against a server that always answers
    500, the first attempt fails and leaves [failures] at 0, and the whole
    login, four failed attempts, ends with [failures] at 1: the only failure
    recorded is the final one. *)
Lemma failed_attempts_not_recorded :
  let w1 := after (loginAttempt defaultConfig "" 0) steadyHost initialWorld in
  let w' := after (performLogin 5 defaultConfig sampleUser)
                  steadyHost initialWorld in
  returned (loginAttempt defaultConfig "" 0) steadyHost initialWorld = Continue 1
  ∧ failures (circuitState w1) ≠ failures (circuitState initialWorld) + 1
  ∧ countEvents (isMetric loginFailRate) (trace w') = 4%nat
  ∧ requests w' = 4%nat
  ∧ circuitState w' = {| failures := 1; openSince := None |}.
Proof. vm_compute. repeat split. discriminate. Qed.

(** C1, amended: a failed attempt inside the retry loop leaves the circuit
    state as it is.  When the breaker lets the login through and each of the
    [MAX_RETRIES + 1] responses fails the rubric, the login makes exactly
    that many requests, returns [null], and [failures] ends one above its
    value after the breaker: the single failure recorded after the loop. *)
Theorem exhausted_login_records_one_failure (cfg : Config) (user : User)
    (h : Host) (w : World) (fuel : nat) :
  0 ≤ MAX_RETRIES cfg →
  returned (circuitBreaker "login") h w = true →
  allFail h (requests w) (Z.to_nat (MAX_RETRIES cfg + 1)) →
  MAX_RETRIES cfg + 1 < Z.of_nat fuel →
  let w0 := after (circuitBreaker "login") h w in
  let w' := after (performLogin fuel cfg user) h w in
  returned (performLogin fuel cfg user) h w = Finished None
  ∧ requests w' = (requests w + Z.to_nat (MAX_RETRIES cfg + 1))%nat
  ∧ failures (circuitState w') = failures (circuitState w0) + 1
  ∧ (∀ (payload : string) (retries : Z) (w1 : World),
       check (respond h (requests w1)) loginChecks = false →
       circuitState (after (loginAttempt cfg payload retries) h w1)
       = circuitState w1).
Proof.
  intros Hmax Hbreaker Hall Hfuel w0 w'. subst w0 w'.
  destruct (performLogin_spec cfg user h w fuel)
    as (n & r & w' & t & Hrun & Hn & Hreq & Htr & Hview & Hend); [lia |].
  unfold returned, after at 1 2. rewrite Hrun. cbn [fst snd].
  destruct Hend as [(Hden & _) | [(_ & -> & Hpast & _ & Hfail)
                                 | (_ & body & m & -> & _ & _ & Hc & _)]].
  - congruence.
  - assert (n = Z.to_nat (MAX_RETRIES cfg + 1)) as -> by lia.
    repeat split; try assumption.
    intros payload retries w1 Hc. unfold after.
    rewrite (loginAttempt_fail cfg payload retries h w1 Hc). reflexivity.
  - rewrite Hall in Hc by lia. discriminate.
Qed.

Lemma exhausted_login_records_one_failure_witness :
  returned (performLogin 5 defaultConfig sampleUser) steadyHost initialWorld
    = Finished None
  ∧ requests (after (performLogin 5 defaultConfig sampleUser)
                steadyHost initialWorld) = 4%nat
  ∧ failures (circuitState (after (performLogin 5 defaultConfig sampleUser)
                              steadyHost initialWorld)) = 1.
Proof.
  destruct (exhausted_login_records_one_failure defaultConfig sampleUser
              steadyHost initialWorld 5) as (Hres & Hreq & Hfail & _).
  - cbn. lia.
  - reflexivity.
  - intros i _. reflexivity.
  - cbn. lia.
  - split; [exact Hres | split; [exact Hreq | exact Hfail]].
Defined.

(** ** Back-off *)

(** C5: for a configuration in the range where the script's doubles are
    exact and a login run on enough fuel.  If the breaker refuses, nothing
    is requested or slept.  If it allows, the login makes [n ≥ 1] attempts,
    where the first [n - 1] responses failed the rubric and the login
    stopped because the [n]-th passed or was attempt number
    [MAX_RETRIES + 1].  In its requests and sleeps, attempt [k] stands at
    position [2k] and the sleep before it, for [k ≥ 1], at position
    [2k - 1] with a delay of exactly [RETRY_INTERVAL * 2^(k-1)]; there are
    [2n - 1] entries, so nothing is slept after the last attempt.  In
    particular, whenever the first [k ≤ MAX_RETRIES] responses fail, the
    back-off [RETRY_INTERVAL * 2^(k-1)] is slept and attempt [k] follows. *)
Theorem backoff_between_attempts (cfg : Config) (user : User) (h : Host)
    (w : World) (fuel : nat) :
  backoffInRange cfg →
  MAX_RETRIES cfg + 1 < Z.of_nat fuel →
  ∃ (n : nat) (t : list Event),
    trace (after (performLogin fuel cfg user) h w) = trace w ++ t
    ∧ requests (after (performLogin fuel cfg user) h w) = (requests w + n)%nat
    ∧ (returned (circuitBreaker "login") h w = false → n = 0%nat)
    ∧ (returned (circuitBreaker "login") h w = true →
       (1 ≤ n)%nat
       ∧ Z.of_nat n ≤ MAX_RETRIES cfg + 1
       ∧ allFail h (requests w) (n - 1)
       ∧ (Z.of_nat n = MAX_RETRIES cfg + 1
          ∨ check (respond h (requests w + (n - 1))) loginChecks = true))
    ∧ length (netView t) = (n + (n - 1))%nat
    ∧ (∀ k : nat, (k < n)%nat →
         netView t !! (2 * k)%nat = Some (Attempt (Z.of_nat k)))
    ∧ (∀ k : nat, (1 ≤ k < n)%nat →
         netView t !! (2 * k - 1)%nat
         = Some (Wait (RETRY_INTERVAL cfg * 2 ^ (Z.of_nat k - 1))))
    ∧ (∀ k : nat,
         returned (circuitBreaker "login") h w = true →
         (1 ≤ k)%nat → Z.of_nat k ≤ MAX_RETRIES cfg →
         allFail h (requests w) k →
         netView t !! (2 * k - 1)%nat
         = Some (Wait (RETRY_INTERVAL cfg * 2 ^ (Z.of_nat k - 1)))
         ∧ netView t !! (2 * k)%nat = Some (Attempt (Z.of_nat k))).
Proof.
  intros (Hmax & _) Hfuel.
  destruct (performLogin_spec cfg user h w fuel)
    as (n & r & w' & t & Hrun & Hn & Hreq & Htr & Hview & Hend); [lia |].
  unfold after. rewrite Hrun. cbn [snd]. exists n, t.
  rewrite Hview, backoffSchedule_length.
  assert (Hat : ∀ k : nat, (k < n)%nat →
            backoffSchedule (RETRY_INTERVAL cfg) 0 n !! (2 * k)%nat
            = Some (Attempt (Z.of_nat k))).
  { intros k Hk. rewrite backoffSchedule_attempt by exact Hk. reflexivity. }
  assert (Hwait : ∀ k : nat, (1 ≤ k < n)%nat →
            backoffSchedule (RETRY_INTERVAL cfg) 0 n !! (2 * k - 1)%nat
            = Some (Wait (RETRY_INTERVAL cfg * 2 ^ (Z.of_nat k - 1)))).
  { intros k Hk. rewrite backoffSchedule_wait by exact Hk. reflexivity. }
  split; [exact Htr |]. split; [exact Hreq |].
  destruct Hend as [(Hden & -> & _)
                   | [(Hgate & _ & Hpast & Hall & _)
                     | (Hgate & body & m & -> & _ & Hall & Hc & _)]].
  - split; [reflexivity |]. split; [intros Hgate; congruence |].
    split; [reflexivity |]. split; [exact Hat |]. split; [exact Hwait |].
    intros k Hgate. congruence.
  - split; [intros Hden; congruence |].
    split.
    { intros _. split; [lia |]. split; [lia |].
      split; [intros i Hi; apply Hall; lia | left; lia]. }
    split; [reflexivity |]. split; [exact Hat |]. split; [exact Hwait |].
    intros k _ Hk1 Hk _. split; [apply Hwait | apply Hat]; lia.
  - split; [intros Hden; congruence |].
    split.
    { intros _. split; [lia |]. split; [lia |].
      replace (S m - 1)%nat with m by lia. split; [exact Hall |].
      right. exact Hc. }
    split; [reflexivity |]. split; [exact Hat |]. split; [exact Hwait |].
    intros k _ Hk1 Hk Hfail.
    assert (k ≤ m)%nat.
    { destruct (Nat.le_gt_cases k m) as [Hle | Hgt]; [exact Hle |].
      rewrite (Hfail m Hgt) in Hc. discriminate. }
    split; [apply Hwait | apply Hat]; lia.
Qed.

Lemma backoff_between_attempts_witness :
  ∃ t : list Event,
    trace (after (performLogin 5 defaultConfig sampleUser)
             steadyHost initialWorld) = t
    ∧ length (netView t) = 7%nat
    ∧ netView t !! 0%nat = Some (Attempt 0)
    ∧ netView t !! 1%nat = Some (Wait 2)
    ∧ netView t !! 2%nat = Some (Attempt 1)
    ∧ netView t !! 3%nat = Some (Wait 4)
    ∧ netView t !! 4%nat = Some (Attempt 2)
    ∧ netView t !! 5%nat = Some (Wait 8)
    ∧ netView t !! 6%nat = Some (Attempt 3).
Proof.
  destruct (backoff_between_attempts defaultConfig sampleUser steadyHost
              initialWorld 5)
    as (n & t & Htr & _ & _ & Hallow & Hlen & Hat & _ & Hfwd).
  - unfold backoffInRange. cbn [MAX_RETRIES RETRY_INTERVAL defaultConfig].
    vm_compute. repeat split; congruence.
  - vm_compute. reflexivity.
  - exists t. split; [exact Htr |].
    destruct (Hallow eq_refl) as (Hn1 & Hn4 & _ & Hstop).
    assert (Hn : n = 4%nat).
    { destruct Hstop as [Hn | Hc]; [cbn in Hn; lia | discriminate Hc]. }
    subst n.
    assert (Hfail : ∀ k, allFail steadyHost (requests initialWorld) k)
      by (intros k i _; reflexivity).
    destruct (Hfwd 1%nat eq_refl ltac:(lia) ltac:(cbn; lia) (Hfail _))
      as [Hw1 Ha1].
    destruct (Hfwd 2%nat eq_refl ltac:(lia) ltac:(cbn; lia) (Hfail _))
      as [Hw2 Ha2].
    destruct (Hfwd 3%nat eq_refl ltac:(lia) ltac:(cbn; lia) (Hfail _))
      as [Hw3 Ha3].
    split; [exact Hlen |].
    split; [exact (Hat 0%nat ltac:(lia)) |].
    split; [exact Hw1 |]. split; [exact Ha1 |].
    split; [exact Hw2 |]. split; [exact Ha2 |].
    split; [exact Hw3 | exact Ha3].
Defined.

(** ** A server that always fails *)

(** C6: with [MAX_RETRIES = 3], a breaker that lets the login through and a
    server whose every response has status 500, the login makes exactly four
    requests, retry counts 0 to 3 with the three back-offs between them, and
    returns [null]. *)
Theorem always_500_four_attempts (cfg : Config) (user : User) (h : Host)
    (w : World) (fuel : nat) :
  MAX_RETRIES cfg = 3 →
  (∀ i : nat, status (respond h i) = 500) →
  returned (circuitBreaker "login") h w = true →
  (4 < fuel)%nat →
  let w' := after (performLogin fuel cfg user) h w in
  returned (performLogin fuel cfg user) h w = Finished None
  ∧ requests w' = (requests w + 4)%nat
  ∧ ∃ t : list Event,
      trace w' = trace w ++ t
      ∧ netView t =
          [Attempt 0; Wait (RETRY_INTERVAL cfg * 1);
           Attempt 1; Wait (RETRY_INTERVAL cfg * 2);
           Attempt 2; Wait (RETRY_INTERVAL cfg * 4);
           Attempt 3].
Proof.
  intros Hmax H500 Hbreaker Hfuel w'. subst w'.
  destruct (performLogin_spec cfg user h w fuel)
    as (n & r & w' & t & Hrun & Hn & Hreq & Htr & Hview & Hend); [lia |].
  unfold returned, after. rewrite Hrun. cbn [fst snd].
  destruct Hend as [(Hden & _) | [(_ & -> & Hpast & _)
                                 | (_ & body & m & -> & _ & _ & Hc & _)]].
  - congruence.
  - assert (n = 4%nat) as -> by lia.
    split; [reflexivity |]. split; [exact Hreq |].
    exists t. split; [exact Htr |]. rewrite Hview. reflexivity.
  - apply check_spec in Hc. destruct Hc as [Hst _].
    rewrite H500 in Hst. discriminate.
Qed.

Lemma always_500_four_attempts_witness :
  returned (performLogin 5 defaultConfig sampleUser) steadyHost initialWorld
    = Finished None
  ∧ requests (after (performLogin 5 defaultConfig sampleUser)
                steadyHost initialWorld) = 4%nat
  ∧ ∃ t : list Event,
      trace (after (performLogin 5 defaultConfig sampleUser)
               steadyHost initialWorld) = t
      ∧ netView t = [Attempt 0; Wait 2; Attempt 1; Wait 4; Attempt 2; Wait 8;
                     Attempt 3].
Proof.
  apply (always_500_four_attempts defaultConfig sampleUser steadyHost
           initialWorld 5).
  - reflexivity.
  - intros i. reflexivity.
  - reflexivity.
  - lia.
Defined.

(** ** A refusing breaker *)

(** C7: when the breaker refuses, the login returns [null] at once, whatever the
    fuel: the world changes by the one clock reading of the breaker and its
    "circuit open" warning; no request, no sleep, no metric, no random draw,
    and the circuit state, failure counter included, is as before. *)
Theorem denied_login_skips (cfg : Config) (user : User) (h : Host)
    (w : World) (fuel : nat) :
  returned (circuitBreaker "login") h w = false →
  performLogin fuel cfg user h w =
    (Finished None,
     {| circuitState := circuitState w; ticks := S (ticks w);
        requests := requests w; draws := draws w;
        trace := trace w ++ [EConsole WarnLevel] |}).
Proof.
  intros Hbreaker. unfold performLogin. cbv [mbind M_bind].
  rewrite (circuitBreaker_denies "login" h w Hbreaker). reflexivity.
Qed.

Lemma denied_login_skips_witness :
  performLogin 0 defaultConfig sampleUser steadyHost
    (afterFailures 5 steadyHost initialWorld)
  = (Finished None,
     {| circuitState := {| failures := 5; openSince := Some 0 |};
        ticks := 2; requests := 0; draws := 0;
        trace := [EConsole ErrorLevel; EConsole WarnLevel] |}).
Proof.
  apply (denied_login_skips defaultConfig sampleUser steadyHost
           (afterFailures 5 steadyHost initialWorld) 0).
  vm_compute. reflexivity.
Defined.

(** ** Termination *)

(** C10: for [MAX_RETRIES ≥ 0] and any host, the login finishes: there is
    one outcome that every run with more than [MAX_RETRIES + 1] units of
    fuel (one per pass through the loop) reaches, and it issues at most
    [MAX_RETRIES + 1] requests.  Every pass either breaks or adds one to
    [retries]; the path that would do neither needs a response that passes
    the rubric and yet does not parse, and there is none. *)
Theorem performLogin_terminates (cfg : Config) (user : User) (h : Host)
    (w : World) :
  0 ≤ MAX_RETRIES cfg →
  ∃ (r : option Json) (w' : World),
    (∀ fuel : nat,
       MAX_RETRIES cfg + 1 < Z.of_nat fuel →
       performLogin fuel cfg user h w = (Finished r, w'))
    ∧ Z.of_nat (requests w') - Z.of_nat (requests w) ≤ MAX_RETRIES cfg + 1
    ∧ (∀ (payload : string) (retries : Z) (w1 : World),
         (∃ body, returned (loginAttempt cfg payload retries) h w1 = Break body)
         ∨ returned (loginAttempt cfg payload retries) h w1
           = Continue (retries + 1))
    ∧ (∀ resp : Response,
         check resp loginChecks = true → json resp ≠ None).
Proof.
  intros Hmax.
  destruct (performLogin_spec cfg user h w (Z.to_nat (MAX_RETRIES cfg + 2)))
    as (n & r & w' & t & Hrun & Hn & Hreq & _); [lia |].
  exists r, w'. repeat split.
  - intros fuel Hfuel.
    apply (performLogin_fuel cfg user h w _ fuel r w' Hrun). lia.
  - lia.
  - intros payload retries w1. unfold returned.
    destruct (check (respond h (requests w1)) loginChecks) eqn:Hc.
    + destruct (check_parses _ Hc) as [body Hj]. left. exists body.
      rewrite (loginAttempt_pass cfg payload retries h w1 body Hc Hj).
      reflexivity.
    + right. rewrite (loginAttempt_fail cfg payload retries h w1 Hc).
      reflexivity.
  - intros resp Hc. destruct (check_parses _ Hc) as [body ->]. discriminate.
Qed.

Lemma performLogin_terminates_witness :
  ∃ (r : option Json) (w' : World),
    (∀ fuel : nat,
       MAX_RETRIES defaultConfig + 1 < Z.of_nat fuel →
       performLogin fuel defaultConfig sampleUser
         (hostAnswering goodResponse) initialWorld = (Finished r, w'))
    ∧ Z.of_nat (requests w') - Z.of_nat (requests initialWorld)
      ≤ MAX_RETRIES defaultConfig + 1
    ∧ (∀ (payload : string) (retries : Z) (w1 : World),
         (∃ body,
            returned (loginAttempt defaultConfig payload retries)
              (hostAnswering goodResponse) w1 = Break body)
         ∨ returned (loginAttempt defaultConfig payload retries)
             (hostAnswering goodResponse) w1 = Continue (retries + 1))
    ∧ (∀ resp : Response,
         check resp loginChecks = true → json resp ≠ None).
Proof.
  apply (performLogin_terminates defaultConfig sampleUser
           (hostAnswering goodResponse) initialWorld).
  cbn. lia.
Defined.

(** ** The user pool *)

Lemma pretty_N_char_no_underscore (x : N) : pretty_N_char x ≠ "_"%char.
Proof. unfold pretty_N_char. repeat case_match; discriminate. Qed.

Lemma pretty_N_go_free (x : N) :
  ∀ s : string, freeOf "_" s → freeOf "_" (pretty_N_go x s).
Proof.
  induction (N.lt_wf_0 x) as [x _ IH]. intros s Hs.
  destruct (N.eq_0_gt_0_cases x) as [-> | Hpos].
  - rewrite pretty_N_go_0. exact Hs.
  - rewrite pretty_N_go_step by exact Hpos.
    apply IH; [apply N.div_lt; [exact Hpos | reflexivity] |].
    cbn. split; [apply pretty_N_char_no_underscore | exact Hs].
Qed.

(** The numeral of a counter value has no underscore. *)
Lemma pretty_Z_free (i : Z) : 0 ≤ i → freeOf "_" (pretty i).
Proof.
  destruct i as [| p | p]; intros Hi; [| | lia].
  - cbn. split; [discriminate | exact I].
  - unfold pretty, pretty_Z, pretty, pretty_positive, pretty, pretty_N.
    case_decide; [discriminate |].
    apply pretty_N_go_free. exact I.
Qed.

(** Two texts that agree up to and beyond their first underscore agree
    before it. *)
Lemma cut_at_underscore (a : string) :
  ∀ (b x y : string),
    freeOf "_" a → freeOf "_" b →
    a +:+ String "_" x = b +:+ String "_" y → a = b.
Proof.
  induction a as [| c a IH]; intros [| c' b] x y Ha Hb Heq.
  - reflexivity.
  - rewrite append_nil, append_cons in Heq. injection Heq as Hc _.
    destruct Hb as [Hb _]. congruence.
  - rewrite append_nil, append_cons in Heq. injection Heq as Hc _.
    destruct Ha as [Ha _]. congruence.
  - rewrite !append_cons in Heq. injection Heq as -> Heq.
    f_equal. apply (IH b x y); [apply Ha | apply Hb | exact Heq].
Qed.

(** The identifier determines the counter. *)
Lemma email_counter (h : Host) (i j : Z) (d e : nat) :
  0 ≤ i → 0 ≤ j →
  email (generatedUser h i d) = email (generatedUser h j e) → i = j.
Proof.
  intros Hi Hj Heq. cbn [email generatedUser] in Heq.
  rewrite !(append_cons _ _ (pretty _ +:+ _)), append_nil in Heq.
  injection Heq as Heq.
  apply (inj pretty).
  eapply cut_at_underscore; [apply pretty_Z_free, Hi | apply pretty_Z_free, Hj |].
  exact Heq.
Qed.

(** The array after [n] more passes of the loop. *)
Lemma generateUserPool_loop_spec (h : Host) (n : nat) :
  ∀ (i : Z) (users : list User) (w : World),
    generateUserPool_loop n i users h w =
      (users ++ ((λ k : nat, generatedUser h (i + Z.of_nat k) (draws w + 3 * k))
                 <$> seq 0 n),
       {| circuitState := circuitState w; ticks := ticks w;
          requests := requests w; draws := (draws w + 3 * n)%nat;
          trace := trace w |}).
Proof.
  induction n as [| n IH]; intros i users w.
  - cbn. rewrite app_nil_r, Nat.add_0_r. destruct w; reflexivity.
  - cbn [generateUserPool_loop]. run_script. rewrite IH. cbn [draws].
    f_equal.
    + rewrite <- app_assoc. f_equal. cbn [seq fmap list_fmap app].
      f_equal.
      * unfold generatedUser. rewrite Z.add_0_r, Nat.add_0_r. reflexivity.
      * rewrite <- seq_shift, <- list_fmap_compose. apply list_fmap_ext.
        intros _ k _. cbn. f_equal; lia.
    + f_equal. lia.
Qed.

(** C9: for [poolSize > 0] the pool has exactly [poolSize] users, in the
    order of the counter; the user at index [i] has an identifier and a
    secret built from [i] and freshly drawn random strings and a freshly
    drawn correlation id; and the identifiers are pairwise distinct, for a
    pool of 5 as for any other size, whatever the random strings are. *)
Theorem generateUserPool_spec (poolSize : Z) (h : Host) (w : World) :
  0 < poolSize →
  let users := returned (generateUserPool poolSize) h w in
  Z.of_nat (length users) = poolSize
  ∧ (∀ i : nat, (i < length users)%nat →
       users !! i = Some (generatedUser h (Z.of_nat i) (draws w + 3 * i)))
  ∧ NoDup (email <$> users).
Proof.
  intros Hpos users. subst users. unfold returned, generateUserPool.
  rewrite generateUserPool_loop_spec. cbn [fst app].
  split; [rewrite length_fmap, length_seq; lia |].
  split.
  - intros i Hi. rewrite length_fmap, length_seq in Hi.
    rewrite list_lookup_fmap, lookup_seq_lt by exact Hi. cbn.
    rewrite Z.add_0_l. reflexivity.
  - rewrite <- list_fmap_compose. apply NoDup_fmap_2_strong; [| apply NoDup_seq].
    intros k1 k2 _ _ Heq. cbn in Heq.
    apply email_counter in Heq; lia.
Qed.

Lemma generateUserPool_spec_witness :
  let users := returned (generateUserPool 5) steadyHost initialWorld in
  Z.of_nat (length users) = 5
  ∧ (∀ i : nat, (i < length users)%nat →
       users !! i
       = Some (generatedUser steadyHost (Z.of_nat i)
                 (draws initialWorld + 3 * i)))
  ∧ NoDup (email <$> users).
Proof.
  apply (generateUserPool_spec 5 steadyHost initialWorld). lia.
Defined.

(** * Further properties of the login *)

(** ** Accounting for the requests of a login *)

Lemma postPayloads_app (t1 t2 : list Event) :
  postPayloads (t1 ++ t2) = postPayloads t1 ++ postPayloads t2.
Proof. apply omap_app. Qed.

Lemma requestIds_app (t1 t2 : list Event) :
  requestIds (t1 ++ t2) = requestIds t1 ++ requestIds t2.
Proof. apply omap_app. Qed.

Lemma metricValues_app (m : Metric) (t1 t2 : list Event) :
  metricValues m (t1 ++ t2) = metricValues m t1 ++ metricValues m t2.
Proof. apply omap_app. Qed.

(** A stretch of trace with console output only. *)
Lemma consoleOnly_views (t : list Event) :
  Forall (λ e, ∃ lvl, e = EConsole lvl) t →
  netView t = [] ∧ postPayloads t = [] ∧ requestIds t = []
  ∧ ∀ m, metricValues m t = [].
Proof.
  induction 1 as [| e t [lvl ->] _ (Hn & Hp & Hr & Hm)].
  - repeat split.
  - repeat split; cbn; auto.
Qed.

(** The books of the loop, whatever the fuel: [n] requests were made, each
    with the payload handed in and the next random string as its id, each
    timed, and each counted as a failure or as the one success. *)
Lemma loginLoop_accounts (cfg : Config) (payload : string) (h : Host) :
  ∀ (fuel : nat) (retries : Z) (w : World) out w',
    loginLoop fuel cfg payload retries h w = (Finished out, w') →
    ∃ (n : nat) (t : list Event),
      trace w' = trace w ++ t
      ∧ requests w' = (requests w + n)%nat
      ∧ draws w' = (draws w + n)%nat
      ∧ postPayloads t = replicate n payload
      ∧ requestIds t = random h <$> seq (draws w) n
      ∧ length (metricValues requestDuration t) = n
      ∧ metricValues loginFailRate t
        = replicate (if snd out is Some _ then n - 1 else n) 1
      ∧ metricValues successfulLogins t
        = (if snd out is Some _ then [1] else [])
      ∧ metricValues bytesSent t = []
      ∧ metricValues dataProcessingTime t = []
      ∧ (is_Some (snd out) → (1 ≤ n)%nat ∧ fst out ≤ MAX_RETRIES cfg).
Proof.
  induction fuel as [| fuel IH]; intros retries w out w' Hrun; [discriminate |].
  cbn [loginLoop] in Hrun.
  destruct (Z.leb_spec retries (MAX_RETRIES cfg)) as [Hle | Hgt].
  - cbv [mbind M_bind] in Hrun.
    destruct (check (respond h (requests w)) loginChecks) eqn:Hc.
    + destruct (check_parses _ Hc) as [body Hj].
      rewrite (loginAttempt_pass cfg payload retries h w body Hc Hj) in Hrun.
      injection Hrun as <- <-. exists 1%nat. eexists.
      split; [reflexivity |]. cbn [requests draws snd fst].
      repeat split; try reflexivity; lia.
    + rewrite (loginAttempt_fail cfg payload retries h w Hc) in Hrun.
      apply IH in Hrun.
      destruct Hrun as (n & t & Htr & Hreq & Hdr & Hpay & Hids & Hdur & Hfail
                        & Hok & Hbytes & Hproc & Hn).
      cbn [trace requests draws] in *.
      exists (S n), (failedAttemptEvents cfg payload retries h w ++ t).
      split; [rewrite Htr, app_assoc; reflexivity |].
      split; [lia |]. split; [lia |].
      assert (Hsplit : ∀ m,
        metricValues m (failedAttemptEvents cfg payload retries h w)
        = metricValues m
            [EMetric requestDuration
               (clock h (S (ticks w)) - clock h (ticks w));
             EMetric loginFailRate 1]).
      { intros m. unfold failedAttemptEvents.
        destruct (retries <? MAX_RETRIES cfg); reflexivity. }
      split.
      { rewrite postPayloads_app, Hpay. unfold failedAttemptEvents.
        destruct (retries <? MAX_RETRIES cfg); reflexivity. }
      split.
      { rewrite requestIds_app, Hids. unfold failedAttemptEvents.
        destruct (retries <? MAX_RETRIES cfg); cbn [seq fmap list_fmap];
          reflexivity. }
      split; [rewrite metricValues_app, Hsplit, length_app, Hdur; reflexivity |].
      split.
      { rewrite metricValues_app, Hsplit, Hfail.
        destruct (snd out) as [body |]; [| reflexivity].
        destruct (Hn (ex_intro _ body eq_refl)) as [Hn1 _].
        destruct n as [| n]; [lia |]. cbn. rewrite Nat.sub_0_r. reflexivity. }
      split; [rewrite metricValues_app, Hsplit, Hok; reflexivity |].
      split; [rewrite metricValues_app, Hsplit, Hbytes; reflexivity |].
      split; [rewrite metricValues_app, Hsplit, Hproc; reflexivity |].
      intros Hsome. destruct (Hn Hsome). split; [lia | assumption].
  - injection Hrun as <- <-. exists 0%nat, [].
    rewrite app_nil_r, !Nat.add_0_r. cbn [snd].
    repeat split; try reflexivity; destruct H as [? ?]; discriminate.
Qed.

(** The breaker and its bookkeeping write to the console at most; they make
    no request and draw no random string. *)
Lemma circuitBreaker_frame (name : string) (h : Host) (w : World) :
  ∃ t : list Event,
    trace (after (circuitBreaker name) h w) = trace w ++ t
    ∧ Forall (λ e, ∃ lvl, e = EConsole lvl) t
    ∧ requests (after (circuitBreaker name) h w) = requests w
    ∧ draws (after (circuitBreaker name) h w) = draws w.
Proof.
  unfold circuitBreaker. run_script.
  destruct (openSince (circuitState w)) as [since |].
  - destruct (Qlt_bool _ _); cbn; eexists; (split; [reflexivity |]);
      repeat split; repeat constructor; eauto.
  - exists []. rewrite app_nil_r. repeat split. constructor.
Qed.

Lemma recordCircuitBreakerResult_frame (b : bool) (h : Host) (w : World) :
  ∃ t : list Event,
    trace (after (recordCircuitBreakerResult b) h w) = trace w ++ t
    ∧ Forall (λ e, ∃ lvl, e = EConsole lvl) t
    ∧ requests (after (recordCircuitBreakerResult b) h w) = requests w
    ∧ draws (after (recordCircuitBreakerResult b) h w) = draws w.
Proof.
  unfold recordCircuitBreakerResult. run_script. destruct b.
  - exists []. cbn. rewrite app_nil_r. repeat split. constructor.
  - destruct (_ && _); cbn.
    + eexists. split; [reflexivity |]. repeat split. repeat constructor. eauto.
    + exists []. rewrite app_nil_r. repeat split. constructor.
Qed.

(** The books of a login that the breaker let through, whatever the fuel it
    finished on. *)
Lemma performLogin_accounts (cfg : Config) (user : User) (h : Host)
    (w : World) (fuel : nat) (r : option Json) (w' : World) :
  performLogin fuel cfg user h w = (Finished r, w') →
  returned (circuitBreaker "login") h w = true →
  let payload :=
    returned (createLoginPayload user) h (after (circuitBreaker "login") h w) in
  ∃ (n : nat) (t : list Event),
    trace w' = trace w ++ t
    ∧ requests w' = (requests w + n)%nat
    ∧ postPayloads t = replicate n payload
    ∧ requestIds t = random h <$> seq (draws w + 2) n
    ∧ metricValues bytesSent t = [Z.of_nat (String.length payload)]
    ∧ length (metricValues dataProcessingTime t) = 1%nat
    ∧ length (metricValues requestDuration t) = n
    ∧ metricValues loginFailRate t = replicate (if r is Some _ then n - 1 else n) 1
    ∧ metricValues successfulLogins t = (if r is Some _ then [1] else [])
    ∧ (is_Some r → (1 ≤ n)%nat).
Proof.
  intros Hrun Hgate payload. subst payload.
  unfold performLogin in Hrun. cbv [mbind M_bind] in Hrun.
  destruct (circuitBreaker_frame "login" h w) as (t0 & Htr0 & Hcon0 & Hreq0 & Hdr0).
  unfold returned in Hgate |- *. unfold after in *.
  destruct (circuitBreaker "login" h w) as [allowed w0]. cbn [fst snd] in *.
  subst allowed. cbn [negb] in Hrun.
  destruct (createLoginPayload_spec user h w0) as (payload & t1 & Hrun1 & _).
  assert (Ht1 : t1 = [EMetric dataProcessingTime
                        (clock h (S (S (ticks w0))) - clock h (ticks w0));
                      EMetric bytesSent (Z.of_nat (String.length payload))]).
  { revert Hrun1. unfold createLoginPayload. run_script.
    rewrite <- app_assoc. intros [= <- Htr]. apply app_inv_head in Htr.
    symmetry. exact Htr. }
  rewrite Hrun1 in Hrun |- *. cbn [fst].
  destruct (loginLoop fuel cfg payload 0 h _) as [[[retries res] |] w2] eqn:Hloop;
    [| discriminate].
  apply loginLoop_accounts in Hloop.
  destruct Hloop as (n & t2 & Htr2 & Hreq2 & Hdr2 & Hpay & Hids & Hdur & Hfail
                     & Hok & Hbytes & Hproc & Hn).
  cbn [trace requests draws snd fst] in *.
  destruct (consoleOnly_views t0 Hcon0) as (_ & Hp0 & Hi0 & Hm0).
  assert (Hfinal : ∃ t3,
            trace w' = trace w2 ++ t3
            ∧ Forall (λ e, ∃ lvl, e = EConsole lvl) t3
            ∧ requests w' = requests w2
            ∧ r = (if MAX_RETRIES cfg <? retries then None else res)).
  { destruct (MAX_RETRIES cfg <? retries).
    - destruct (recordCircuitBreakerResult_frame false h w2)
        as (t3 & Htr3 & Hcon3 & Hreq3 & _).
      unfold after in *.
      destruct (recordCircuitBreakerResult false h w2) as [[] w3].
      injection Hrun as <- <-. exists t3. repeat split; assumption.
    - injection Hrun as <- <-. exists []. rewrite app_nil_r.
      repeat split. constructor. }
  destruct Hfinal as (t3 & Htr3 & Hcon3 & Hreq3 & Hr).
  destruct (consoleOnly_views t3 Hcon3) as (_ & Hp3 & Hi3 & Hm3).
  assert (Hres : r = res).
  { rewrite Hr. destruct (Z.ltb_spec (MAX_RETRIES cfg) retries) as [Hlt |];
      [| reflexivity].
    destruct res as [body |]; [| reflexivity].
    destruct (Hn (ex_intro _ body eq_refl)). lia. }
  subst res. clear Hr.
  exists n, (t0 ++ t1 ++ t2 ++ t3).
  split; [rewrite Htr3, Htr2, Htr0, <- !app_assoc; reflexivity |].
  split; [lia |].
  rewrite !postPayloads_app, !requestIds_app, !metricValues_app.
  rewrite Hp0, Hi0, Hp3, Hi3, !Hm0, !Hm3, Hpay, Hids, Hfail, Hok, Hbytes,
    Hproc, Hdr0, !app_nil_r.
  subst t1. cbn.
  repeat split; try reflexivity; try exact Hdur.
  - replace (draws w + 2)%nat with (S (S (draws w))) by lia. reflexivity.
  - intros Hsome. apply Hn, Hsome.
Qed.

(** X1: a login that the breaker lets through builds its payload once and
    sends that same payload with every attempt; only the [X-Request-ID] is
    drawn anew for each attempt (the next random strings after the two the
    payload took), and the bytes-sent counter receives the payload length
    exactly once, however many attempts follow. *)
Theorem login_resends_one_payload (cfg : Config) (user : User) (h : Host)
    (w : World) (fuel : nat) (r : option Json) (w' : World) :
  performLogin fuel cfg user h w = (Finished r, w') →
  returned (circuitBreaker "login") h w = true →
  let payload :=
    returned (createLoginPayload user) h (after (circuitBreaker "login") h w) in
  ∃ (n : nat) (t : list Event),
    trace w' = trace w ++ t
    ∧ requests w' = (requests w + n)%nat
    ∧ postPayloads t = replicate n payload
    ∧ requestIds t = random h <$> seq (draws w + 2) n
    ∧ metricValues bytesSent t = [Z.of_nat (String.length payload)].
Proof.
  intros Hrun Hgate payload.
  destruct (performLogin_accounts cfg user h w fuel r w' Hrun Hgate)
    as (n & t & Htr & Hreq & Hpay & Hids & Hbytes & _).
  exists n, t. repeat split; assumption.
Qed.

Lemma login_resends_one_payload_witness :
  ∃ (n : nat) (t : list Event),
    trace (after (performLogin 5 defaultConfig sampleUser)
             steadyHost initialWorld) = trace initialWorld ++ t
    ∧ requests (after (performLogin 5 defaultConfig sampleUser)
                  steadyHost initialWorld) = (requests initialWorld + n)%nat
    ∧ postPayloads t = replicate n (email sampleUser)
    ∧ requestIds t = random steadyHost <$> seq (draws initialWorld + 2) n
    ∧ metricValues bytesSent t
      = [Z.of_nat (String.length (email sampleUser))].
Proof.
  apply (login_resends_one_payload defaultConfig sampleUser steadyHost
           initialWorld 5 None
           (after (performLogin 5 defaultConfig sampleUser)
              steadyHost initialWorld)).
  - vm_compute. reflexivity.
  - reflexivity.
Defined.

(** X2: in a login that the breaker lets through, every request is timed
    once and classified once: the request-duration trend gets one value per
    request, and each request adds either 1 to the login-failure rate or 1 to
    the successful-logins counter; the latter happens at most once, for the
    last request, and exactly when the login returns a body. *)
Theorem login_attempts_accounted (cfg : Config) (user : User) (h : Host)
    (w : World) (fuel : nat) (r : option Json) (w' : World) :
  performLogin fuel cfg user h w = (Finished r, w') →
  returned (circuitBreaker "login") h w = true →
  ∃ (n : nat) (t : list Event),
    trace w' = trace w ++ t
    ∧ requests w' = (requests w + n)%nat
    ∧ length (metricValues requestDuration t) = n
    ∧ (length (metricValues loginFailRate t)
       + length (metricValues successfulLogins t) = n)%nat
    ∧ metricValues loginFailRate t
      = replicate (length (metricValues loginFailRate t)) 1
    ∧ metricValues successfulLogins t = (if r is Some _ then [1] else []).
Proof.
  intros Hrun Hgate.
  destruct (performLogin_accounts cfg user h w fuel r w' Hrun Hgate)
    as (n & t & Htr & Hreq & _ & _ & _ & _ & Hdur & Hfail & Hok & Hn).
  exists n, t. rewrite Hfail, Hok, length_replicate.
  repeat split; try assumption.
  destruct r as [body |]; cbn; [| lia].
  specialize (Hn (ex_intro _ body eq_refl)). lia.
Qed.

Lemma login_attempts_accounted_witness :
  ∃ (n : nat) (t : list Event),
    trace (after (performLogin 5 defaultConfig sampleUser)
             (hostAnswering goodResponse) initialWorld)
    = trace initialWorld ++ t
    ∧ requests (after (performLogin 5 defaultConfig sampleUser)
                  (hostAnswering goodResponse) initialWorld)
      = (requests initialWorld + n)%nat
    ∧ length (metricValues requestDuration t) = n
    ∧ (length (metricValues loginFailRate t)
       + length (metricValues successfulLogins t) = n)%nat
    ∧ metricValues loginFailRate t
      = replicate (length (metricValues loginFailRate t)) 1
    ∧ metricValues successfulLogins t = [1].
Proof.
  apply (login_attempts_accounted defaultConfig sampleUser
           (hostAnswering goodResponse) initialWorld 5
           (json goodResponse)
           (after (performLogin 5 defaultConfig sampleUser)
              (hostAnswering goodResponse) initialWorld)).
  - vm_compute. reflexivity.
  - reflexivity.
Defined.

(** X3: whatever a login returns other than [null] is a JSON object whose
    [token] is a string of more than 10 characters, taken from a response
    that met the whole rubric, and the login leaves the circuit closed with
    the failure counter at 0. *)
Theorem login_result_has_token (cfg : Config) (user : User) (h : Host)
    (w : World) (fuel : nat) (body : Json) (w' : World) :
  performLogin fuel cfg user h w = (Finished (Some body), w') →
  (∃ (props : gmap string Json) (token : string),
     body = JObj props
     ∧ props !! "token" = Some (JStr token)
     ∧ (10 < String.length token)%nat)
  ∧ (∃ i : nat,
       (requests w ≤ i < requests w')%nat
       ∧ json (respond h i) = Some body
       ∧ passesRubric (respond h i))
  ∧ circuitState w' = initialCircuit.
Proof.
  intros Hrun.
  set (big := (fuel + Z.to_nat (Z.max 0 (MAX_RETRIES cfg + 1)) + 1)%nat).
  assert (Hbig : performLogin big cfg user h w = (Finished (Some body), w')).
  { apply (performLogin_fuel cfg user h w fuel big _ _ Hrun). lia. }
  destruct (performLogin_spec cfg user h w big)
    as (n & r & w'' & t & Hrun' & Hn & Hreq & _ & _ & Hend); [lia |].
  rewrite Hbig in Hrun'. injection Hrun' as <- <-.
  destruct Hend as [(_ & _ & [=] & _) | [(_ & [=] & _)
                   | (_ & body' & m & -> & [= <-] & _ & Hc & Hj & Hst)]].
  apply check_spec in Hc.
  split; [| split; [| exact Hst]].
  - destruct Hc as (_ & (props & token & Hj' & Ht & Hlen) & _).
    rewrite Hj in Hj'. injection Hj' as ->. eauto.
  - exists (requests w + m)%nat. split; [lia |]. split; assumption.
Qed.

Lemma login_result_has_token_witness :
  (∃ (props : gmap string Json) (token : string),
     JObj {[ "token" := JStr "abcdefghijk" ]} = JObj props
     ∧ props !! "token" = Some (JStr token)
     ∧ (10 < String.length token)%nat)
  ∧ (∃ i : nat,
       (requests initialWorld ≤ i
        < requests (after (performLogin 5 defaultConfig sampleUser)
                      (hostAnswering goodResponse) initialWorld))%nat
       ∧ json (respond (hostAnswering goodResponse) i)
         = Some (JObj {[ "token" := JStr "abcdefghijk" ]})
       ∧ passesRubric (respond (hostAnswering goodResponse) i))
  ∧ circuitState (after (performLogin 5 defaultConfig sampleUser)
                    (hostAnswering goodResponse) initialWorld)
    = initialCircuit.
Proof.
  apply (login_result_has_token defaultConfig sampleUser
           (hostAnswering goodResponse) initialWorld 5).
  vm_compute. reflexivity.
Defined.

(** ** Logins and the state of the breaker *)

(** A login out of retries, in full: after the loop, whose passes left the
    circuit as the breaker handed it over, one failure is recorded. *)
Lemma performLogin_exhausted (cfg : Config) (user : User) (h : Host)
    (w : World) (fuel : nat) :
  returned (circuitBreaker "login") h w = true →
  allFail h (requests w) (Z.to_nat (MAX_RETRIES cfg + 1)) →
  Z.max 0 (MAX_RETRIES cfg + 1) < Z.of_nat fuel →
  ∃ w2 : World,
    performLogin fuel cfg user h w
    = (Finished None, after (recordCircuitBreakerResult false) h w2)
    ∧ circuitState w2 = circuitState (after (circuitBreaker "login") h w)
    ∧ requests w2 = (requests w + Z.to_nat (MAX_RETRIES cfg + 1))%nat.
Proof.
  intros Hgate Hall Hfuel. unfold performLogin. cbv [mbind M_bind].
  destruct (circuitBreaker_allows "login" h w Hgate)
    as (w0 & t0 & Hrun0 & Hclosed & Hreq0 & _).
  unfold after at 2. rewrite Hrun0. cbn [negb snd].
  destruct (createLoginPayload_spec user h w0) as (payload & t1 & Hrun1 & _).
  rewrite Hrun1.
  match goal with |- context [loginLoop fuel cfg payload 0 h ?w1] =>
    destruct (loginLoop_spec cfg payload h fuel 0 w1)
      as (n & out & w2 & t2 & Hrun2 & Hn & Hreq2 & _ & _ & Hend); [lia |]
  end.
  rewrite Hrun2. cbn [requests circuitState] in *.
  destruct Hend as [(-> & Hpast & _ & Hst)
                   | (body & m & -> & _ & _ & _ & Hc & _)].
  - destruct (Z.ltb_spec (MAX_RETRIES cfg) (0 + Z.of_nat n)); [| lia].
    exists w2. unfold after.
    destruct (recordCircuitBreakerResult false h w2) as [[] w3].
    split; [reflexivity |]. split; [exact Hst | lia].
  - rewrite Hreq0, Hall in Hc by lia. discriminate.
Qed.

(** X4: there is no half-open state.  When the breaker is open and its
    cool-down is over, the next login is let through with the counter back
    at 0; if that login runs out of retries too, the breaker stays closed
    with [failures = 1], and it takes four more exhausted logins to open it
    again. *)
Theorem failed_probe_keeps_breaker_closed (cfg : Config) (user : User)
    (h : Host) (w : World) (fuel : nat) (since : Z) :
  openSince (circuitState w) = Some since →
  CIRCUIT_RESET_TIME * 1000 ≤ clock h (ticks w) - since →
  allFail h (requests w) (Z.to_nat (MAX_RETRIES cfg + 1)) →
  Z.max 0 (MAX_RETRIES cfg + 1) < Z.of_nat fuel →
  let w' := after (performLogin fuel cfg user) h w in
  returned (performLogin fuel cfg user) h w = Finished None
  ∧ requests w' = (requests w + Z.to_nat (MAX_RETRIES cfg + 1))%nat
  ∧ circuitState w' = {| failures := 1; openSince := None |}.
Proof.
  intros Ho Hcool Hall Hfuel w'. subst w'.
  assert (Hgate : returned (circuitBreaker "login") h w = true).
  { rewrite circuitBreaker_returned, Ho.
    destruct (Z.ltb_spec (clock h (ticks w) - since) (CIRCUIT_RESET_TIME * 1000));
      [lia | reflexivity]. }
  destruct (performLogin_exhausted cfg user h w fuel Hgate Hall Hfuel)
    as (w2 & Hrun & Hst & Hreq).
  unfold returned, after. rewrite Hrun. cbn [fst snd].
  unfold after in Hst.
  rewrite (circuitBreaker_cooled h w "login" since Ho Hcool) in Hst.
  cbn [snd circuitState] in Hst.
  unfold after. rewrite record_failure_quiet.
  2:{ left. rewrite Hst. reflexivity. }
  cbn [snd requests circuitState]. rewrite Hst.
  split; [reflexivity |]. split; [exact Hreq | reflexivity].
Qed.

Lemma failed_probe_keeps_breaker_closed_witness :
  let h := {| clock := λ n, 40000 * Z.of_nat n;
              respond := λ _, failing500;
              random := λ n, pretty n;
              idInTest := 1;
              stringify := pl_email |} in
  let w := afterFailures 5 h initialWorld in
  openSince (circuitState w) = Some 0
  ∧ returned (performLogin 5 defaultConfig sampleUser) h w = Finished None
  ∧ requests (after (performLogin 5 defaultConfig sampleUser) h w) = 4%nat
  ∧ circuitState (after (performLogin 5 defaultConfig sampleUser) h w)
    = {| failures := 1; openSince := None |}.
Proof.
  split; [reflexivity |].
  apply (failed_probe_keeps_breaker_closed defaultConfig sampleUser
           {| clock := λ n, 40000 * Z.of_nat n;
              respond := λ _, failing500;
              random := λ n, pretty n;
              idInTest := 1;
              stringify := pl_email |}
           (afterFailures 5 _ initialWorld) 5 0).
  - reflexivity.
  - vm_compute. discriminate.
  - intros i _. reflexivity.
  - vm_compute. reflexivity.
Defined.

Lemma loginTimes_S (k fuel : nat) (cfg : Config) (user : User) (h : Host)
    (w : World) :
  returned (loginTimes (S k) fuel cfg user) h w
  = returned (performLogin fuel cfg user) h w
      :: returned (loginTimes k fuel cfg user) h
           (after (performLogin fuel cfg user) h w)
  ∧ after (loginTimes (S k) fuel cfg user) h w
    = after (loginTimes k fuel cfg user) h
        (after (performLogin fuel cfg user) h w).
Proof.
  unfold returned, after. cbn [loginTimes]. cbv [mbind M_bind mret M_ret].
  destruct (performLogin fuel cfg user h w) as [r w1]. cbn [fst snd].
  destruct (loginTimes k fuel cfg user h w1) as [rs w2]. split; reflexivity.
Qed.

(** Logins that run out of retries, one after the other, on a closed
    breaker: each adds one to the counter. *)
Lemma exhausted_logins (cfg : Config) (user : User) (h : Host) (fuel : nat) :
  (∀ i : nat, check (respond h i) loginChecks = false) →
  Z.max 0 (MAX_RETRIES cfg + 1) < Z.of_nat fuel →
  ∀ (k : nat) (w : World),
    openSince (circuitState w) = None →
    failures (circuitState w) + Z.of_nat k ≤ CIRCUIT_MAX_FAILURES →
    let w' := after (loginTimes k fuel cfg user) h w in
    returned (loginTimes k fuel cfg user) h w = replicate k (Finished None)
    ∧ requests w' = (requests w + k * Z.to_nat (MAX_RETRIES cfg + 1))%nat
    ∧ failures (circuitState w') = failures (circuitState w) + Z.of_nat k
    ∧ (failures (circuitState w) + Z.of_nat k < CIRCUIT_MAX_FAILURES →
       openSince (circuitState w') = None)
    ∧ (failures (circuitState w) + Z.of_nat k = CIRCUIT_MAX_FAILURES →
       (1 ≤ k)%nat → is_Some (openSince (circuitState w'))).
Proof.
  intros Hfail Hfuel. induction k as [| k IH]; intros w Hc Hk w'; subst w'.
  - unfold returned, after. cbn. rewrite Z.add_0_r, Nat.add_0_r.
    repeat split; [intros _; exact Hc | intros _ ?; lia].
  - destruct (loginTimes_S k fuel cfg user h w) as [-> ->].
    assert (Hgate : returned (circuitBreaker "login") h w = true).
    { rewrite circuitBreaker_returned, Hc. reflexivity. }
    destruct (performLogin_exhausted cfg user h w fuel Hgate) as (w2 & Hrun & Hst & Hreq);
      [intros i _; apply Hfail | exact Hfuel |].
    unfold after in Hst.
    rewrite (circuitBreaker_closed h w "login" Hc) in Hst. cbn [snd] in Hst.
    assert (Hret : returned (performLogin fuel cfg user) h w = Finished None)
      by (unfold returned; rewrite Hrun; reflexivity).
    assert (Haft : after (performLogin fuel cfg user) h w
                   = after (recordCircuitBreakerResult false) h w2)
      by (unfold after at 1; rewrite Hrun; reflexivity).
    rewrite Hret, Haft. clear Hret Haft Hrun.
    destruct (Z.lt_ge_cases (failures (circuitState w) + 1) CIRCUIT_MAX_FAILURES)
      as [Hlt | Hge].
    + assert (Hw1 : after (recordCircuitBreakerResult false) h w2
                    = {| circuitState :=
                           {| failures := failures (circuitState w) + 1;
                              openSince := None |};
                         ticks := ticks w2; requests := requests w2;
                         draws := draws w2; trace := trace w2 |}).
      { unfold after.
        rewrite record_failure_quiet by (left; rewrite Hst; exact Hlt).
        cbn [snd]. rewrite Hst, Hc. reflexivity. }
      rewrite Hw1.
      match goal with |- context [loginTimes k fuel cfg user] =>
        match goal with |- context [after _ h ?w1] =>
          destruct (IH w1) as (Hres & Hreq' & Hcount & Hclosed & Hopen);
            [reflexivity | cbn; lia |]
        end
      end.
      cbn [requests circuitState failures openSince] in *.
      split; [cbn [replicate]; f_equal; exact Hres |].
      split; [rewrite Hreq', Hreq; lia |].
      split; [rewrite Hcount; lia |].
      split; [intros ?; apply Hclosed; lia |].
      intros ? _. destruct k as [| k]; [lia |]. apply Hopen; lia.
    + assert (k = 0%nat) as -> by lia.
      assert (Hw1 : after (recordCircuitBreakerResult false) h w2
                    = {| circuitState :=
                           {| failures := failures (circuitState w) + 1;
                              openSince := Some (clock h (ticks w2)) |};
                         ticks := S (ticks w2); requests := requests w2;
                         draws := draws w2;
                         trace := trace w2 ++ [EConsole ErrorLevel] |}).
      { unfold after.
        rewrite record_failure_opens;
          [| rewrite Hst; exact Hge | rewrite Hst; exact Hc].
        cbn [snd]. rewrite Hst. reflexivity. }
      rewrite Hw1. unfold returned, after. cbn [loginTimes].
      cbv [mret M_ret]. cbn [fst snd requests circuitState failures openSince].
      split; [reflexivity |]. split; [lia |]. split; [lia |].
      split; [intros ?; lia | intros _ _; eauto].
Qed.

(** X5: the breaker counts logins, not requests.  From a closed breaker
    with counter [f < 5] and a server none of whose responses meets the
    rubric, the breaker is still closed after every smaller number of
    logins and opens with the [(5 - f)]-th, each login having made its
    [MAX_RETRIES + 1] requests; a further login whose clock reading is
    within the cool-down then makes no request and returns [null]. *)
Theorem exhausted_logins_open_breaker (cfg : Config) (user : User)
    (h : Host) (w : World) (fuel : nat) :
  openSince (circuitState w) = None →
  0 ≤ failures (circuitState w) < CIRCUIT_MAX_FAILURES →
  (∀ i : nat, check (respond h i) loginChecks = false) →
  Z.max 0 (MAX_RETRIES cfg + 1) < Z.of_nat fuel →
  let k := Z.to_nat (CIRCUIT_MAX_FAILURES - failures (circuitState w)) in
  let w' := after (loginTimes k fuel cfg user) h w in
  returned (loginTimes k fuel cfg user) h w = replicate k (Finished None)
  ∧ requests w' = (requests w + k * Z.to_nat (MAX_RETRIES cfg + 1))%nat
  ∧ (∀ j : nat, (j < k)%nat →
       openSince (circuitState (after (loginTimes j fuel cfg user) h w)) = None)
  ∧ failures (circuitState w') = CIRCUIT_MAX_FAILURES
  ∧ ∃ openedAt : Z,
      openSince (circuitState w') = Some openedAt
      ∧ (clock h (ticks w') - openedAt < CIRCUIT_RESET_TIME * 1000 →
         ∀ fuel' : nat,
           returned (performLogin fuel' cfg user) h w' = Finished None
           ∧ requests (after (performLogin fuel' cfg user) h w') = requests w').
Proof.
  intros Hc Hf Hfail Hfuel k w'. subst w'.
  destruct (exhausted_logins cfg user h fuel Hfail Hfuel k w Hc)
    as (Hres & Hreq & Hcount & _ & Hopen); [subst k; lia |].
  split; [exact Hres |]. split; [exact Hreq |]. split.
  { intros j Hj.
    destruct (exhausted_logins cfg user h fuel Hfail Hfuel j w Hc)
      as (_ & _ & _ & Hclosed & _); [subst k; lia |].
    apply Hclosed. subst k. lia. }
  split; [rewrite Hcount; subst k; lia |].
  destruct Hopen as [openedAt Ho]; [subst k; lia | subst k; lia |].
  exists openedAt. split; [exact Ho |].
  set (W := after (loginTimes k fuel cfg user) h w) in *.
  intros Hearly fuel'. unfold returned, after, performLogin.
  cbv [mbind M_bind].
  rewrite (circuitBreaker_cooling h W "login" openedAt Ho Hearly).
  split; reflexivity.
Qed.

Lemma exhausted_logins_open_breaker_witness :
  let w' := after (loginTimes 5 5 defaultConfig sampleUser)
                  steadyHost initialWorld in
  returned (loginTimes 5 5 defaultConfig sampleUser) steadyHost initialWorld
    = replicate 5 (Finished None)
  ∧ requests w' = 20%nat
  ∧ (∀ j : nat, (j < 5)%nat →
       openSince (circuitState (after (loginTimes j 5 defaultConfig sampleUser)
                                  steadyHost initialWorld)) = None)
  ∧ failures (circuitState w') = 5
  ∧ ∃ openedAt : Z,
      openSince (circuitState w') = Some openedAt
      ∧ (clock steadyHost (ticks w') - openedAt < CIRCUIT_RESET_TIME * 1000 →
         ∀ fuel' : nat,
           returned (performLogin fuel' defaultConfig sampleUser) steadyHost w'
             = Finished None
           ∧ requests (after (performLogin fuel' defaultConfig sampleUser)
                         steadyHost w') = requests w').
Proof.
  apply (exhausted_logins_open_breaker defaultConfig sampleUser steadyHost
           initialWorld 5).
  - reflexivity.
  - vm_compute. split; [discriminate | reflexivity].
  - intros i. reflexivity.
  - vm_compute. reflexivity.
Defined.

(** ** More on the breaker's bookkeeping *)

Lemma breakerRun_snoc (h : Host) (ops : list BreakerOp) (op : BreakerOp)
    (w : World) :
  after (breakerRun (ops ++ [op])) h w
  = after (breakerStep op) h (after (breakerRun ops) h w).
Proof.
  rewrite breakerRun_app. unfold after. cbn [breakerRun].
  cbv [mbind M_bind mret M_ret].
  destruct (breakerStep op h _) as [[] w1]. reflexivity.
Qed.

Lemma afterFailures_counter (h : Host) (n : nat) (w : World) :
  failures (circuitState (afterFailures n h w))
  = failures (circuitState w) + Z.of_nat n.
Proof.
  revert w. induction n as [| n IH]; intros w.
  - unfold afterFailures, after. cbn. lia.
  - rewrite afterFailures_S, IH.
    destruct (record_failure_frame h w) as (w1 & t & Hrun & Hf & _).
    unfold after. rewrite Hrun. cbn [snd]. lia.
Qed.

(** X6: [failures] is the length of the current run of failures.  After any
    sequence of breaker operations that ends with a success followed by [k]
    failures, the counter is [k]; with no success, [k] failures add [k] to
    what the counter was. *)
Theorem counter_is_trailing_failures (h : Host) (w : World)
    (ops : list BreakerOp) (k : nat) :
  failures (circuitState
              (after (breakerRun (ops ++ RecordResult true
                                    :: replicate k (RecordResult false))) h w))
  = Z.of_nat k
  ∧ failures (circuitState
                (after (breakerRun (replicate k (RecordResult false))) h w))
    = failures (circuitState w) + Z.of_nat k.
Proof.
  split; [| apply afterFailures_counter].
  change (RecordResult true :: replicate k (RecordResult false))
    with ([RecordResult true] ++ replicate k (RecordResult false)).
  rewrite app_assoc, breakerRun_app, breakerRun_snoc.
  fold (afterFailures k h
          (after (breakerStep (RecordResult true)) h (after (breakerRun ops) h w))).
  rewrite afterFailures_counter. unfold after at 1. cbn [breakerStep].
  rewrite record_success. cbn. lia.
Qed.

(** X7: once set, [openSince] is not touched by recording results: neither
    do further failures restart the cool-down nor does a success end it.
    After any sequence of recorded results on an open breaker, [openSince]
    is the same timestamp, and the breaker lets a call through exactly when
    [CIRCUIT_RESET_TIME] seconds have passed since that timestamp. *)
Theorem open_timestamp_not_refreshed (h : Host) (w : World) (since : Z)
    (results : list bool) :
  openSince (circuitState w) = Some since →
  let w' := after (breakerRun (RecordResult <$> results)) h w in
  openSince (circuitState w') = Some since
  ∧ ticks w' = ticks w
  ∧ (returned (circuitBreaker "login") h w' = true
     ↔ CIRCUIT_RESET_TIME * 1000 ≤ clock h (ticks w) - since).
Proof.
  intros Ho w'. subst w'.
  assert (Hkeep : openSince (circuitState
                     (after (breakerRun (RecordResult <$> results)) h w))
                  = Some since
                  ∧ ticks (after (breakerRun (RecordResult <$> results)) h w)
                    = ticks w).
  { revert w Ho. induction results as [| b results IH]; intros w Ho.
    - split; [exact Ho | reflexivity].
    - cbn [fmap list_fmap]. rewrite breakerRun_cons.
      assert (Hstep : openSince (circuitState
                         (after (breakerStep (RecordResult b)) h w)) = Some since
                      ∧ ticks (after (breakerStep (RecordResult b)) h w)
                        = ticks w).
      { unfold after. cbn [breakerStep]. destruct b.
        - rewrite record_success. cbn. split; [exact Ho | reflexivity].
        - rewrite record_failure_quiet by (right; rewrite Ho; eauto).
          cbn. split; [exact Ho | reflexivity]. }
      destruct Hstep as [Ho1 Ht1].
      destruct (IH _ Ho1) as [Ho2 Ht2]. split; [exact Ho2 | congruence]. }
  destruct Hkeep as [Ho' Ht']. split; [exact Ho' |]. split; [exact Ht' |].
  rewrite circuitBreaker_returned, Ho', Ht'.
  destruct (Z.ltb_spec (clock h (ticks w) - since) (CIRCUIT_RESET_TIME * 1000));
    cbn; split; intros; try lia; try discriminate; reflexivity.
Qed.

Lemma open_timestamp_not_refreshed_witness :
  let w := afterFailures 5 steadyHost initialWorld in
  let w' := after (breakerRun (RecordResult <$> [false; true; false]))
                  steadyHost w in
  openSince (circuitState w') = Some 0
  ∧ ticks w' = ticks w
  ∧ (returned (circuitBreaker "login") steadyHost w' = true
     ↔ CIRCUIT_RESET_TIME * 1000 ≤ clock steadyHost (ticks w) - 0).
Proof.
  apply (open_timestamp_not_refreshed steadyHost
           (afterFailures 5 steadyHost initialWorld) 0 [false; true; false]).
  reflexivity.
Defined.

(** X8: a call that the breaker lets through leaves the circuit closed, so
    asking again, any number of times, gives [true] again without reading
    the clock, logging, or changing anything. *)
Theorem allowed_stays_allowed (h : Host) (w : World) (m : nat) :
  returned (circuitBreaker "login") h w = true →
  let w0 := after (circuitBreaker "login") h w in
  allowTimes m h w0 = (replicate m true, w0).
Proof.
  intros Hgate w0. subst w0.
  destruct (circuitBreaker_allows "login" h w Hgate) as (w0 & t0 & Hrun & Hc & _).
  unfold after. rewrite Hrun. cbn [snd]. clear Hrun.
  induction m as [| m IH]; [reflexivity |].
  cbn [allowTimes]. cbv [mbind M_bind mret M_ret].
  rewrite (circuitBreaker_closed h w0 "login" Hc), IH. reflexivity.
Qed.

Lemma allowed_stays_allowed_witness :
  let h := {| clock := λ n, 40000 * Z.of_nat n;
              respond := λ _, failing500;
              random := λ n, pretty n;
              idInTest := 1;
              stringify := pl_email |} in
  let w0 := after (circuitBreaker "login") h (afterFailures 5 h initialWorld) in
  allowTimes 3 h w0 = ([true; true; true], w0).
Proof.
  apply (allowed_stays_allowed
           {| clock := λ n, 40000 * Z.of_nat n;
              respond := λ _, failing500;
              random := λ n, pretty n;
              idInTest := 1;
              stringify := pl_email |}
           (afterFailures 5 _ initialWorld) 3).
  vm_compute. reflexivity.
Defined.

Lemma breakerStep_local (h : Host) (op : BreakerOp) (w : World) :
  let w' := after (breakerStep op) h w in
  requests w' = requests w
  ∧ draws w' = draws w
  ∧ (ticks w ≤ ticks w' ≤ S (ticks w))%nat
  ∧ ∃ t : list Event,
      trace w' = trace w ++ t
      ∧ Forall (λ e, ∃ lvl, e = EConsole lvl) t
      ∧ (length t ≤ 1)%nat.
Proof.
  destruct op as [| b]; unfold after, breakerStep.
  - unfold circuitBreaker. run_script.
    destruct (openSince (circuitState w)) as [since |].
    + destruct (Qlt_bool _ _); cbn; (split; [reflexivity |]);
        (split; [reflexivity |]); (split; [lia |]); eexists;
        (split; [reflexivity |]); split; [| cbn; lia | | cbn; lia];
        repeat constructor; eauto.
    + cbn. split; [reflexivity |]. split; [reflexivity |]. split; [lia |].
      exists []. rewrite app_nil_r. split; [reflexivity |].
      split; [constructor | cbn; lia].
  - unfold recordCircuitBreakerResult. run_script. destruct b.
    + cbn. split; [reflexivity |]. split; [reflexivity |]. split; [lia |].
      exists []. rewrite app_nil_r. split; [reflexivity |].
      split; [constructor | cbn; lia].
    + destruct (_ && _); cbn; (split; [reflexivity |]);
        (split; [reflexivity |]); (split; [lia |]).
      * eexists. split; [reflexivity |]. split; [| cbn; lia].
        repeat constructor. eauto.
      * exists []. rewrite app_nil_r. split; [reflexivity |].
        split; [constructor | cbn; lia].
Qed.

(** X9: the breaker works on its own two fields, the clock and the console.
    No sequence of its operations makes a request, sleeps, adds to a metric
    or draws a random string; each operation reads the clock at most once
    and writes at most one console line. *)
Theorem breaker_ops_stay_local (h : Host) (w : World) (ops : list BreakerOp) :
  let w' := after (breakerRun ops) h w in
  requests w' = requests w
  ∧ draws w' = draws w
  ∧ (ticks w ≤ ticks w' ≤ ticks w + length ops)%nat
  ∧ ∃ t : list Event,
      trace w' = trace w ++ t
      ∧ Forall (λ e, ∃ lvl, e = EConsole lvl) t
      ∧ (length t ≤ length ops)%nat.
Proof.
  revert w. induction ops as [| op ops IH]; intros w w'; subst w'.
  - unfold after. cbn. split; [reflexivity |]. split; [reflexivity |].
    split; [lia |]. exists []. rewrite app_nil_r.
    split; [reflexivity |]. split; [constructor | cbn; lia].
  - rewrite breakerRun_cons.
    destruct (breakerStep_local h op w)
      as (Hreq1 & Hdr1 & Htk1 & t1 & Htr1 & Hcon1 & Hlen1).
    destruct (IH (after (breakerStep op) h w))
      as (Hreq2 & Hdr2 & Htk2 & t2 & Htr2 & Hcon2 & Hlen2).
    split; [congruence |]. split; [congruence |].
    split; [cbn [length]; lia |].
    exists (t1 ++ t2). split; [rewrite Htr2, Htr1, app_assoc; reflexivity |].
    split; [apply Forall_app; split; assumption |].
    rewrite length_app. cbn [length]. lia.
Qed.

(** ** Time spent backing off *)

Lemma totalSleep_netView (t : list Event) :
  totalSleep t = totalWait (netView t).
Proof.
  unfold totalSleep, netView.
  induction t as [| e t IH]; [reflexivity |].
  destruct e; cbn in *; rewrite ?IH; reflexivity.
Qed.

Lemma totalWait_schedule (interval : Z) (n : nat) :
  ∀ k : Z,
    0 ≤ k →
    totalWait (backoffSchedule interval k (S n))
    = interval * (2 ^ (k + Z.of_nat n) - 2 ^ k).
Proof.
  induction n as [| n IH]; intros k Hk.
  - cbn. rewrite Z.add_0_r. lia.
  - change (totalWait (backoffSchedule interval k (S (S n))))
      with (interval * 2 ^ k
            + totalWait (backoffSchedule interval (k + 1) (S n))).
    rewrite IH by lia.
    replace (k + 1 + Z.of_nat n) with (k + Z.of_nat (S n)) by lia.
    rewrite (Z.pow_add_r 2 k 1) by lia. lia.
Qed.

(** X10: for a configuration in the range where the script's doubles are
    exact ([backoffInRange]: at most 1023 retries, an integer interval of at
    most 53 bits, the largest product below 2^1024), the seconds a login
    spends in [sleep] depend only on how many attempts it makes: with
    [n ≥ 1] attempts it sleeps [RETRY_INTERVAL * (2^(n-1) - 1)] seconds in
    all, and nothing without an attempt.  A login that runs out of retries
    therefore sleeps [RETRY_INTERVAL * (2^MAX_RETRIES - 1)] seconds: 14 with
    the defaults. *)
Theorem login_sleeps_geometric_sum (cfg : Config) (user : User) (h : Host)
    (w : World) (fuel : nat) :
  backoffInRange cfg →
  MAX_RETRIES cfg + 1 < Z.of_nat fuel →
  let w' := after (performLogin fuel cfg user) h w in
  let n := (requests w' - requests w)%nat in
  ∃ t : list Event,
    trace w' = trace w ++ t
    ∧ Z.of_nat n ≤ MAX_RETRIES cfg + 1
    ∧ totalSleep t
      = (if decide (n = 0%nat) then 0
         else RETRY_INTERVAL cfg * (2 ^ (Z.of_nat n - 1) - 1))
    ∧ (returned (circuitBreaker "login") h w = true →
       allFail h (requests w) (Z.to_nat (MAX_RETRIES cfg + 1)) →
       Z.of_nat n = MAX_RETRIES cfg + 1
       ∧ totalSleep t = RETRY_INTERVAL cfg * (2 ^ MAX_RETRIES cfg - 1)).
Proof.
  intros (Hmax & _) Hfuel w' n. subst n w'.
  destruct (performLogin_spec cfg user h w fuel)
    as (n & r & w' & t & Hrun & Hn & Hreq & Htr & Hview & Hend); [lia |].
  unfold after. rewrite Hrun. cbn [snd].
  replace (requests w' - requests w)%nat with n by lia.
  exists t. split; [exact Htr |]. split; [lia |].
  assert (Hsum : totalSleep t
                 = (if decide (n = 0%nat) then 0
                    else RETRY_INTERVAL cfg * (2 ^ (Z.of_nat n - 1) - 1))).
  { rewrite totalSleep_netView, Hview. destruct n as [| n]; [reflexivity |].
    rewrite totalWait_schedule by lia.
    destruct (decide (S n = 0%nat)); [lia |].
    replace (Z.of_nat (S n) - 1) with (0 + Z.of_nat n) by lia. reflexivity. }
  split; [exact Hsum |].
  intros Hgate Hall. rewrite Hsum.
  destruct Hend as [(Hden & _) | [(_ & _ & Hpast & _)
                                 | (_ & body & m & -> & _ & _ & Hc & _)]].
  - congruence.
  - split; [lia |]. destruct (decide (n = 0%nat)); [lia |].
    replace (Z.of_nat n - 1) with (MAX_RETRIES cfg) by lia. reflexivity.
  - rewrite Hall in Hc by lia. discriminate.
Qed.

Lemma login_sleeps_geometric_sum_witness :
  let w' := after (performLogin 5 defaultConfig sampleUser)
                  steadyHost initialWorld in
  let n := (requests w' - requests initialWorld)%nat in
  ∃ t : list Event,
    trace w' = trace initialWorld ++ t
    ∧ Z.of_nat n ≤ MAX_RETRIES defaultConfig + 1
    ∧ totalSleep t
      = (if decide (n = 0%nat) then 0
         else RETRY_INTERVAL defaultConfig * (2 ^ (Z.of_nat n - 1) - 1))
    ∧ (returned (circuitBreaker "login") steadyHost initialWorld = true →
       allFail steadyHost (requests initialWorld)
         (Z.to_nat (MAX_RETRIES defaultConfig + 1)) →
       Z.of_nat n = MAX_RETRIES defaultConfig + 1
       ∧ totalSleep t = RETRY_INTERVAL defaultConfig
                        * (2 ^ MAX_RETRIES defaultConfig - 1)).
Proof.
  apply (login_sleeps_geometric_sum defaultConfig sampleUser steadyHost
           initialWorld 5).
  - unfold backoffInRange. cbn [MAX_RETRIES RETRY_INTERVAL defaultConfig].
    vm_compute. repeat split; congruence.
  - vm_compute. reflexivity.
Defined.

(** The defaults at work: an exhausted login sleeps 2 + 4 + 8 seconds. *)
Example default_login_sleeps_14 :
  totalSleep (trace (after (performLogin 5 defaultConfig sampleUser)
                       steadyHost initialWorld)) = 14.
Proof. vm_compute. reflexivity. Qed.

(** * The random-string utility of example.js *)

Lemma length_append (s t : string) :
  String.length (s +:+ t) = (String.length s + String.length t)%nat.
Proof.
  induction s as [| c s IH]; [reflexivity |].
  rewrite append_cons. cbn. rewrite IH. reflexivity.
Qed.

Lemma charsFrom_append (cs s t : string) :
  Example.charsFrom cs s → Example.charsFrom cs t →
  Example.charsFrom cs (s +:+ t).
Proof.
  intros Hs Ht. induction s as [| c s IH]; [exact Ht |].
  rewrite append_cons. destruct Hs as [Hc Hs]. split; [exact Hc | exact (IH Hs)].
Qed.

Lemma get_in_range (s : string) :
  ∀ n : nat, (n < String.length s)%nat → ∃ c, String.get n s = Some c.
Proof.
  induction s as [| a s IH]; intros n Hn; [cbn in Hn; lia |].
  destruct n as [| n]; [exists a; reflexivity |].
  cbn in *. apply IH. lia.
Qed.

(** An answer of [Math.random()] in [0, 1) selects a character. *)
Lemma charsetAt_in_range (r : Q) :
  (0 <= r)%Q → (r < 1)%Q →
  ∃ c,
    Example.charsetAt
      (Qfloor (r * inject_Z (Z.of_nat (String.length Example.charset))))
    = String c EmptyString
    ∧ (∃ i, String.get i Example.charset = Some c).
Proof.
  intros H0 H1.
  set (i := Qfloor (r * inject_Z (Z.of_nat (String.length Example.charset)))).
  assert (Hlo : 0 ≤ i).
  { change 0 with (Qfloor 0). apply Qfloor_resp_le.
    apply Qmult_le_0_compat; [exact H0 | discriminate]. }
  assert (Hhi : i < 36).
  { rewrite Zlt_Qlt. eapply Qle_lt_trans; [apply Qfloor_le |].
    change (r * 36 < 1 * 36)%Q.
    apply Qmult_lt_compat_r; [reflexivity | exact H1]. }
  unfold Example.charsetAt.
  destruct (Z.ltb_spec i 0); [lia |].
  destruct (get_in_range Example.charset (Z.to_nat i)) as [c Hc];
    [change (String.length Example.charset) with 36%nat; lia |].
  rewrite Hc. exists c. split; [reflexivity | eauto].
Qed.

Lemma randomString_loop_spec (mathRandom : nat → Q) :
  (∀ i : nat, (0 <= mathRandom i)%Q ∧ (mathRandom i < 1)%Q) →
  ∀ (n fuel calls : nat) (res : string),
    (n < fuel)%nat →
    ∃ s : string,
      Example.randomString_loop fuel mathRandom calls (Z.of_nat n) res
      = Finished (res +:+ s, (calls + n)%nat)
      ∧ String.length s = n
      ∧ Example.charsFrom Example.charset s.
Proof.
  intros Hrnd. induction n as [| n IH]; intros fuel calls res Hfuel;
    (destruct fuel as [| fuel]; [lia |]); cbn [Example.randomString_loop].
  - exists "". cbn. rewrite Nat.add_0_r.
    replace (res +:+ "") with res; [repeat split |].
    clear. induction res as [| c res IH]; [reflexivity |].
    rewrite append_cons, <- IH. reflexivity.
  - destruct (Z.eqb_spec (Z.of_nat (S n)) 0) as [| _]; [lia |].
    replace (Z.of_nat (S n) - 1) with (Z.of_nat n) by lia.
    destruct (Hrnd calls) as [H0 H1].
    destruct (charsetAt_in_range (mathRandom calls) H0 H1) as (c & -> & Hc).
    destruct (IH fuel (S calls) (res +:+ String c "")) as (s & Hrun & Hlen & Hfrom);
      [lia |].
    exists (String c s). rewrite Hrun. split.
    + f_equal. f_equal; [| lia].
      clear. induction res as [| a res IH]; [reflexivity |].
      rewrite !append_cons, IH. reflexivity.
    + split; [cbn; rewrite Hlen; reflexivity |]. split; [exact Hc | exact Hfrom].
Qed.

(** X11: for a length [n ≥ 0] and a [Math.random()] that answers in [0, 1),
    [randomString] returns, on any fuel above [n], a string of exactly [n]
    characters, all of them from the charset of lower-case letters and
    digits, after exactly [n] calls of [Math.random()]; for length 0 that is
    the empty string. *)
Theorem example_randomString_length (mathRandom : nat → Q) (calls : nat)
    (n fuel : nat) :
  (∀ i : nat, (0 <= mathRandom i)%Q ∧ (mathRandom i < 1)%Q) →
  (n < fuel)%nat →
  ∃ s : string,
    Example.randomString fuel mathRandom calls (Z.of_nat n)
    = Finished (s, (calls + n)%nat)
    ∧ String.length s = n
    ∧ Example.charsFrom Example.charset s.
Proof.
  intros Hrnd Hfuel. unfold Example.randomString.
  destruct (randomString_loop_spec mathRandom Hrnd n fuel calls "" Hfuel)
    as (s & Hrun & Hlen & Hfrom).
  exists s. rewrite Hrun, append_nil. repeat split; assumption.
Qed.

Lemma example_randomString_length_witness :
  ∃ s : string,
    Example.randomString 9 (λ i, (Z.of_nat i * 7) `mod` 40 # 40) 0 (Z.of_nat 8)
    = Finished (s, (0 + 8)%nat)
    ∧ String.length s = 8%nat
    ∧ Example.charsFrom Example.charset s.
Proof.
  apply (example_randomString_length
           (λ i, (Z.of_nat i * 7) `mod` 40 # 40) 0 8 9).
  - intros i. unfold Qle, Qlt. cbn [Qnum Qden].
    pose proof (Z.mod_pos_bound (Z.of_nat i * 7) 40). lia.
  - lia.
Defined.

(** X12: a negative length is never counted down to 0: the loop condition
    stays true, so [randomString] does not return, whatever the fuel. *)
Theorem example_randomString_negative_diverges (mathRandom : nat → Q)
    (calls : nat) (length : Z) (fuel : nat) :
  length < 0 →
  Example.randomString fuel mathRandom calls length = OutOfFuel.
Proof.
  intros Hneg. unfold Example.randomString. generalize "" as res.
  revert calls length Hneg.
  induction fuel as [| fuel IH]; intros calls length Hneg res; [reflexivity |].
  cbn [Example.randomString_loop].
  destruct (Z.eqb_spec length 0); [lia |]. apply IH. lia.
Qed.

Lemma example_randomString_negative_diverges_witness :
  Example.randomString 1000 (λ _, 0%Q) 0 (-1) = OutOfFuel.
Proof.
  apply (example_randomString_negative_diverges (λ _, 0%Q) 0 (-1) 1000). lia.
Defined.

(** * The stages *)

Ltac run_stage :=
  cbv [mbind mret Script_bind Script_ret liftM liftRun Math_random
       randomIntBetween request askDriver throw];
  cbn [fst snd world rolls calls].

(** The identifiers of a generated pool are pairwise distinct. *)
Lemma generated_emails_distinct (h : Host) (d n : nat) :
  NoDup (email <$> ((λ k : nat, generatedUser h (0 + Z.of_nat k) (d + 3 * k))
                    <$> seq 0 n)).
Proof.
  rewrite <- list_fmap_compose. apply NoDup_fmap_2_strong; [| apply NoDup_seq].
  intros k1 k2 _ _ Heq. cbn in Heq. apply email_counter in Heq; lia.
Qed.


Lemma performLogin_denied (cfg : Config) (user : User) (h : Host) (w : World)
    (fuel : nat) :
  returned (circuitBreaker "login") h w = false →
  performLogin fuel cfg user h w =
    (Finished None,
     {| circuitState := circuitState w; ticks := S (ticks w);
        requests := requests w; draws := draws w;
        trace := trace w ++ [EConsole WarnLevel] |}).
Proof.
  intros Hgate. unfold performLogin. cbv [mbind M_bind].
  rewrite (circuitBreaker_denies "login" h w Hgate). reflexivity.
Qed.

(** X14: an iteration that finds the breaker open does nothing but wait.
    It ends normally, whatever the user pool (an empty one included) and
    the fuel: no request of any kind, no metric, no random string, the
    circuit state as it was; the trace gains the breaker's warning and the
    one think-time sleep at the end of the iteration. *)
Theorem iteration_skips_when_open (fuel : nat) (cfg : Config)
    (userPool : list User) (d : Driver) (s : Session) :
  returned (circuitBreaker "login") (host d) (world s) = false →
  iteration fuel cfg userPool d s =
    (Normal tt,
     {| world :=
          {| circuitState := circuitState (world s);
             ticks := S (ticks (world s));
             requests := requests (world s);
             draws := draws (world s);
             trace := trace (world s)
                      ++ [EConsole WarnLevel;
                          ESleep (randomInt d (S (rolls s)) 1 5)] |};
        rolls := S (S (rolls s));
        calls := calls s |}).
Proof.
  intros Hgate. unfold iteration. run_stage.
  assert (Hlogin : performLoginOn fuel cfg
                     (userAt userPool
                        (randomInt d (rolls s) 0 (Z.of_nat (length userPool) - 1)))
                     d {| world := world s; rolls := S (rolls s);
                          calls := calls s |}
                   = (Normal None,
                      {| world :=
                           {| circuitState := circuitState (world s);
                              ticks := S (ticks (world s));
                              requests := requests (world s);
                              draws := draws (world s);
                              trace := trace (world s) ++ [EConsole WarnLevel] |};
                         rolls := S (rolls s); calls := calls s |})).
  { destruct (userAt _ _) as [u |]; unfold performLoginOn; run_stage.
    - rewrite (performLogin_denied cfg u (host d) (world s) fuel Hgate).
      reflexivity.
    - rewrite (circuitBreaker_denies "login" (host d) (world s) Hgate).
      reflexivity. }
  rewrite Hlogin. cbn [truthy]. unfold sleep. run_script.
  cbn [world rolls calls circuitState ticks requests draws trace].
  rewrite <- app_assoc. reflexivity.
Qed.

Lemma iteration_skips_when_open_witness :
  let d := driverOn steadyHost (1 # 2) in
  let s := {| world := afterFailures 5 steadyHost initialWorld;
              rolls := 0; calls := [] |} in
  iteration 0 defaultConfig [] d s =
    (Normal tt,
     {| world :=
          {| circuitState := {| failures := 5; openSince := Some 0 |};
             ticks := 2; requests := 0; draws := 0;
             trace := [EConsole ErrorLevel; EConsole WarnLevel; ESleep 1] |};
        rolls := 2;
        calls := [] |}).
Proof.
  apply (iteration_skips_when_open 0 defaultConfig []
           (driverOn steadyHost (1 # 2))
           {| world := afterFailures 5 steadyHost initialWorld;
              rolls := 0; calls := [] |}).
  vm_compute. reflexivity.
Defined.

Lemma userAt_nil (i : Z) : userAt [] i = None.
Proof. unfold userAt. destruct (i <? 0); reflexivity. Qed.

(** X15: with an empty user pool (a [USER_POOL_SIZE] of 0 or less) an
    iteration that the breaker lets through dies with a [TypeError] while the
    login payload is built: before any request, any metric and any sleep,
    the think time included, and without a failure being recorded on the
    breaker, which therefore never opens on this account. *)
Theorem iteration_on_empty_pool_throws (fuel : nat) (cfg : Config)
    (d : Driver) (s : Session) :
  returned (circuitBreaker "login") (host d) (world s) = true →
  let s' := snd (iteration fuel cfg [] d s) in
  fst (iteration fuel cfg [] d s) = Thrown TypeError
  ∧ requests (world s') = requests (world s)
  ∧ calls s' = calls s
  ∧ circuitState (world s')
    = circuitState (after (circuitBreaker "login") (host d) (world s))
  ∧ (∃ t : list Event,
       trace (world s') = trace (world s) ++ t
       ∧ Forall (λ e, ∃ lvl, e = EConsole lvl) t).
Proof.
  intros Hgate s'. subst s'. unfold iteration. run_stage.
  rewrite userAt_nil. unfold performLoginOn. run_stage.
  destruct (circuitBreaker_frame "login" (host d) (world s))
    as (t & Htr & Hcon & Hreq & _).
  unfold returned in Hgate. unfold after in *.
  destruct (circuitBreaker "login" (host d) (world s)) as [allowed w0].
  cbn [fst snd] in *. subst allowed. cbn [negb]. unfold Date_now.
  cbn [fst snd world rolls calls requests circuitState trace].
  repeat split; try assumption. exists t. split; assumption.
Qed.

Lemma iteration_on_empty_pool_throws_witness :
  let d := driverOn steadyHost (1 # 2) in
  let s' := snd (iteration 5 defaultConfig [] d initialSession) in
  fst (iteration 5 defaultConfig [] d initialSession) = Thrown TypeError
  ∧ requests (world s') = requests (world initialSession)
  ∧ calls s' = calls initialSession
  ∧ circuitState (world s')
    = circuitState (after (circuitBreaker "login") (host d)
                      (world initialSession))
  ∧ (∃ t : list Event,
       trace (world s') = trace (world initialSession) ++ t
       ∧ Forall (λ e, ∃ lvl, e = EConsole lvl) t).
Proof.
  apply (iteration_on_empty_pool_throws 5 defaultConfig
           (driverOn steadyHost (1 # 2)) initialSession).
  reflexivity.
Defined.




(** * The user pool, for any size *)

(** X17: for every integer [poolSize], zero and negative ones included, the
    pool has [max(poolSize, 0)] users, so none for a size of 0 or less; their
    identifiers are pairwise distinct; generating it draws exactly three
    random strings per user, in the order identifier, secret, correlation
    id, and changes nothing else in the world. *)
Theorem generateUserPool_any_size (poolSize : Z) (h : Host) (w : World) :
  let users := returned (generateUserPool poolSize) h w in
  let w' := after (generateUserPool poolSize) h w in
  Z.of_nat (length users) = Z.max poolSize 0
  ∧ (poolSize ≤ 0 → users = [])
  ∧ NoDup (email <$> users)
  ∧ (∀ (i : nat) (u : User),
       users !! i = Some u →
       email u = "user" +:+ pretty (Z.of_nat i) +:+ "_"
                 +:+ random h (draws w + 3 * i) +:+ "@example.com"
       ∧ password u = "Secure" +:+ random h (draws w + 3 * i + 1) +:+ "!"
                      +:+ pretty (Z.of_nat i)
       ∧ userId u = random h (draws w + 3 * i + 2))
  ∧ draws w' = (draws w + 3 * length users)%nat
  ∧ (circuitState w', ticks w', requests w', trace w')
    = (circuitState w, ticks w, requests w, trace w).
Proof.
  intros users w'. subst users w'. unfold returned, after, generateUserPool.
  rewrite generateUserPool_loop_spec. cbn [fst snd app draws circuitState ticks
                                            requests trace].
  rewrite length_fmap, length_seq.
  split; [lia |].
  split; [intros Hle; replace (Z.to_nat poolSize) with 0%nat by lia; reflexivity |].
  split; [apply generated_emails_distinct |].
  split; [| split; reflexivity].
  intros i u Hu. rewrite list_lookup_fmap in Hu.
  destruct (seq 0 (Z.to_nat poolSize) !! i) as [k |] eqn:Hk; [| discriminate].
  apply lookup_seq in Hk. destruct Hk as [-> _].
  injection Hu as <-. cbn [email password userId generatedUser].
  rewrite Z.add_0_l.
  replace (draws w + 3 * i + 1)%nat with (S (draws w + 3 * i)) by lia.
  replace (draws w + 3 * i + 2)%nat with (S (S (draws w + 3 * i))) by lia.
  repeat split.
Qed.

(** * Which response a login returns *)

(** X18: a login that the breaker lets through returns the body of the
    first response that meets the rubric.  If the first [m] responses fail
    and the next one passes, with [m ≤ MAX_RETRIES], the login makes exactly
    [m + 1] requests and returns that response's parsed body; later
    responses are never asked for. *)
Theorem login_returns_first_passing (cfg : Config) (user : User) (h : Host)
    (w : World) (fuel m : nat) :
  returned (circuitBreaker "login") h w = true →
  Z.of_nat m ≤ MAX_RETRIES cfg →
  allFail h (requests w) m →
  check (respond h (requests w + m)) loginChecks = true →
  MAX_RETRIES cfg + 1 < Z.of_nat fuel →
  let w' := after (performLogin fuel cfg user) h w in
  returned (performLogin fuel cfg user) h w
  = Finished (json (respond h (requests w + m)))
  ∧ is_Some (json (respond h (requests w + m)))
  ∧ requests w' = (requests w + m + 1)%nat.
Proof.
  intros Hgate Hm Hall Hpass Hfuel w'. subst w'.
  destruct (performLogin_spec cfg user h w fuel)
    as (n & r & w' & t & Hrun & Hn & Hreq & _ & _ & Hend); [lia |].
  unfold returned, after. rewrite Hrun. cbn [fst snd].
  destruct Hend as [(Hden & _) | [(_ & _ & Hpast & Hall' & _)
                                 | (_ & body & m' & -> & -> & Hall' & Hc & Hj & _)]].
  - congruence.
  - rewrite Hall' in Hpass by lia. discriminate.
  - assert (m' = m) as ->.
    { destruct (Nat.lt_trichotomy m' m) as [Hlt | [Heq | Hgt]]; [| exact Heq |].
      - rewrite (Hall m' Hlt) in Hc. discriminate.
      - rewrite (Hall' m Hgt) in Hpass. discriminate. }
    rewrite Hj. split; [reflexivity |]. split; [eauto | lia].
Qed.

Lemma login_returns_first_passing_witness :
  let h := {| clock := λ n, 1000 * Z.of_nat n;
              respond := λ n, if (n <? 2)%nat then failing500 else goodResponse;
              random := λ n, pretty n;
              idInTest := 1;
              stringify := pl_email |} in
  returned (performLogin 5 defaultConfig sampleUser) h initialWorld
  = Finished (json goodResponse)
  ∧ is_Some (json goodResponse)
  ∧ requests (after (performLogin 5 defaultConfig sampleUser) h initialWorld)
    = 3%nat.
Proof.
  apply (login_returns_first_passing defaultConfig sampleUser
           {| clock := λ n, 1000 * Z.of_nat n;
              respond := λ n, if (n <? 2)%nat then failing500 else goodResponse;
              random := λ n, pretty n;
              idInTest := 1;
              stringify := pl_email |}
           initialWorld 5 2).
  - reflexivity.
  - cbn. lia.
  - intros i Hi. destruct i as [| [| i]]; [reflexivity | reflexivity | lia].
  - reflexivity.
  - cbn. lia.
Defined.
